(** * jobsApp: the job query and statistics controllers

    A shallow embedding of [controllers/jobs.js] and of the [login] handler of
    [controllers/auth.js], with the properties of the job query and
    statistics engine proved over it.

    The controllers are thin: most of their behaviour is that of the values
    and libraries they hand their arguments to.  The file therefore has three
    layers, each in a module of its own:
    - [JS]: the JavaScript values the handlers compute with (numbers as
      IEEE-754 doubles, [Number(...)], truthiness, [||], [Math.ceil]);
    - [Mongo] and [Job]: the document store as the handlers use it through
      Mongoose (filters, [$regex], sort, skip, limit, count, [$group]);
    - [Jobs] and [Auth]: the handlers themselves, line by line.

    What a query leaves to the store (its regular-expression engine, the
    order it gives to documents whose sort keys are equal, what its cursor
    does with a [skip] or a [limit] that is no integer) is a parameter of the
    model, [Job.Store], and the properties of [getAllJobs] are proved for
    every store that keeps the laws [StoreLaws]. *)

From Stdlib Require Qcanon.
From Stdlib Require Import ZArith QArith Qround Ascii String DecimalString.
From stdpp Require Import base option list strings gmap sorting.

Local Open Scope string_scope.
Local Open Scope Z_scope.

(* ================================================================== *)
(** ** JavaScript values *)
(* ================================================================== *)

Module JS.

(** A JavaScript number: an IEEE-754 double.  A finite double is held as
    the rational it is, in lowest terms; the two zeros are one value, which
    no operation of the handlers tells apart. *)
Inductive jsnum : Type :=
  | NaN
  | PInf
  | NInf
  | Fin (q : Q).

(** The double that is the integer [z], for [z] of magnitude [2 ^ 53] at most. *)
Definition of_Z (z : Z) : jsnum := Fin (inject_Z z).

Definition Qsign (q : Q) : Z := Z.sgn (Qnum q).

(** *** Rounding to a double

    Every operation gives the double nearest to the exact result, the one
    with an even significand when two are as near (round to nearest, ties to
    even).  A double is [m * 2 ^ e] with [m] below [2 ^ 53] and [e] from
    [-1074] to [971]; the exponent of a result is the least that keeps [m]
    below [2 ^ 53], and [-1074] at least, so that small results lose digits
    down to zero, and a result of [2 ^ 1024] or more is an infinity. *)

(** [2 ^ k <= n / d], for [k] of either sign. *)
Definition pow2_le (k n d : Z) : bool :=
  if 0 <=? k then 2 ^ k * d <=? n else d <=? 2 ^ (- k) * n.

(** The integer part of the binary logarithm of [n / d], both positive. *)
Definition ilog2 (n d : Z) : Z :=
  let k := Z.log2 n - Z.log2 d in
  if pow2_le k n d then k else k - 1.

(** The integer nearest to [n / d], the even one of two as near; [d] is positive. *)
Definition round_even (n d : Z) : Z :=
  let f := n / d in
  match 2 * (n mod d) ?= d with
  | Lt => f
  | Gt => f + 1
  | Eq => if Z.even f then f else f + 1
  end.

Definition round64 (q : Q) : jsnum :=
  let n := Qnum (Qred q) in
  let d := Zpos (Qden (Qred q)) in
  if n =? 0 then Fin 0
  else
    let e := Z.max (ilog2 (Z.abs n) d - 52) (-1074) in
    let up := 2 ^ Z.max 0 e in
    let down := 2 ^ Z.max 0 (- e) in
    let m := round_even (Z.abs n * down) (d * up) in
    if 2 ^ 1024 * down <=? m * up then (if n <? 0 then NInf else PInf)
    else Fin (Qred (Qmake (Z.sgn n * m * up) (Z.to_pos down))).

(** A count that the store reports, as a number. *)
Definition of_nat (n : nat) : jsnum := round64 (inject_Z (Z.of_nat n)).

(** [ToBoolean] on a number: [NaN] and zero are falsy. *)
Definition truthy (n : jsnum) : bool :=
  match n with
  | NaN => false
  | PInf | NInf => true
  | Fin q => negb (Qsign q =? 0)
  end.

(** A number that is [NaN] or zero. *)
Definition nan_or_zero (n : jsnum) : Prop :=
  n = NaN ∨ ∃ q, n = Fin q ∧ q == 0.

(** [a || b] where [a] is a number. *)
Definition or (a b : jsnum) : jsnum := if truthy a then a else b.

Definition neg (a : jsnum) : jsnum :=
  match a with
  | NaN => NaN
  | PInf => NInf
  | NInf => PInf
  | Fin q => Fin (Qred (- q))
  end.

Definition add (a b : jsnum) : jsnum :=
  match a, b with
  | NaN, _ | _, NaN => NaN
  | PInf, NInf | NInf, PInf => NaN
  | PInf, _ | _, PInf => PInf
  | NInf, _ | _, NInf => NInf
  | Fin x, Fin y => round64 (x + y)
  end.

(** [a - b]. *)
Definition sub (a b : jsnum) : jsnum := add a (neg b).

Definition signed_inf (s : Z) : jsnum :=
  if s =? 0 then NaN else if 0 <? s then PInf else NInf.

Definition sign (a : jsnum) : option Z :=
  match a with
  | NaN => None
  | PInf => Some 1
  | NInf => Some (-1)
  | Fin q => Some (Qsign q)
  end.

(** [a * b]: infinity times zero is [NaN]. *)
Definition mul (a b : jsnum) : jsnum :=
  match a, b with
  | Fin x, Fin y => round64 (x * y)
  | _, _ =>
      match sign a, sign b with
      | Some s, Some t => signed_inf (s * t)
      | _, _ => NaN
      end
  end.

(** [a / b].  A zero divisor is taken as [+0]; the handlers divide by
    [limit] only, which is never zero. *)
Definition div (a b : jsnum) : jsnum :=
  match a, b with
  | NaN, _ | _, NaN => NaN
  | Fin x, Fin y => if Qsign y =? 0 then signed_inf (Qsign x) else round64 (x / y)
  | Fin _, _ => Fin 0
  | _, Fin y => signed_inf (match sign a with Some s => s * (if Qsign y =? 0 then 1 else Qsign y) | None => 0 end)
  | _, _ => NaN
  end.

(** [Math.ceil]: the ceiling of a double is a double. *)
Definition Math_ceil (a : jsnum) : jsnum :=
  match a with
  | Fin q => of_Z (Qceiling q)
  | _ => a
  end.

(** The integer a number denotes, when it denotes one. *)
Definition as_Z (a : jsnum) : option Z :=
  match a with
  | Fin q => if Qnum q mod Zpos (Qden q) =? 0 then Some (Qnum q / Zpos (Qden q)) else None
  | _ => None
  end.

(** *** [Number(value)] for a query-string value

    A query parameter is absent ([undefined]) or a string.  [Number] of
    [undefined] is [NaN]; [Number] of a string follows the
    [StringNumericLiteral] grammar of ECMA-262 (7.1.4.1): surrounding white
    space is dropped, the empty string is [0], then either a signed decimal
    literal (digits, optional fraction, optional exponent, or [Infinity]) or
    an unsigned [0x], [0o] or [0b] integer; anything else is [NaN].  The
    number is the double nearest to the value the literal spells.
    Characters are code points below 256. *)

Definition code (c : ascii) : Z := Z.of_N (N_of_ascii c).

Definition isStrWhiteSpaceChar (c : ascii) : bool :=
  let n := code c in
  ((9 <=? n) && (n <=? 13)) || (n =? 32) || (n =? 160).

Fixpoint dropWhiteSpace (l : list ascii) : list ascii :=
  match l with
  | c :: l' => if isStrWhiteSpaceChar c then dropWhiteSpace l' else l
  | [] => []
  end.

Definition trimWhiteSpace (l : list ascii) : list ascii :=
  rev (dropWhiteSpace (rev (dropWhiteSpace l))).

(** The value of [c] as a digit in [base] (2, 8, 10 or 16). *)
Definition digitValue (base : Z) (c : ascii) : option Z :=
  let n := code c in
  let v :=
    if (48 <=? n) && (n <=? 57) then Some (n - 48)
    else if (97 <=? n) && (n <=? 102) then Some (n - 87)
    else if (65 <=? n) && (n <=? 70) then Some (n - 55)
    else None in
  match v with
  | Some d => if d <? base then Some d else None
  | None => None
  end.

(** The longest prefix of digits of [l], as its value and length, and the rest. *)
Fixpoint spanDigits (base : Z) (acc : Z) (len : Z) (l : list ascii) : Z * Z * list ascii :=
  match l with
  | c :: l' =>
      match digitValue base c with
      | Some d => spanDigits base (base * acc + d) (len + 1) l'
      | None => (acc, len, l)
      end
  | [] => (acc, len, [])
  end.

(** A string that is digits of [base] throughout, and not empty. *)
Definition allDigits (base : Z) (l : list ascii) : option Z :=
  match spanDigits base 0 0 l with
  | (v, len, []) => if 0 <? len then Some v else None
  | _ => None
  end.

(** [ExponentPart], or nothing, up to the end of the string. *)
Definition exponentPart (l : list ascii) : option Z :=
  match l with
  | [] => Some 0
  | c :: l' =>
      if (code c =? 101) || (code c =? 69) then
        match l' with
        | s :: l'' =>
            if code s =? 43 then allDigits 10 l''
            else if code s =? 45 then Z.opp <$> allDigits 10 l''
            else allDigits 10 l'
        | [] => None
        end
      else None
  end.

(** [StrUnsignedDecimalLiteral]. *)
Definition unsignedDecimal (l : list ascii) : jsnum :=
  if String.eqb (string_of_list_ascii l) "Infinity" then PInf else
  let '(ip, ilen, r1) := spanDigits 10 0 0 l in
  let '(m, flen, r2) :=
    match r1 with
    | c :: r =>
        if code c =? 46 then spanDigits 10 ip 0 r else (ip, -1, r1)
    | [] => (ip, -1, r1)
    end in
  (* [flen = -1]: no dot.  With a dot, one side must have a digit. *)
  if (if flen =? -1 then 0 <? ilen else 0 <? ilen + flen) then
    match exponentPart r2 with
    | Some e => round64 (inject_Z m * Qpower (10 # 1) (e - Z.max flen 0))
    | None => NaN
    end
  else NaN.

Definition StringToNumber (s : string) : jsnum :=
  match trimWhiteSpace (list_ascii_of_string s) with
  | [] => Fin 0
  | (c :: l') as l =>
      let radix (base : Z) (ds : list ascii) : jsnum :=
        match allDigits base ds with Some v => round64 (inject_Z v) | None => NaN end in
      match l' with
      | p :: ds =>
          if (code c =? 48) && ((code p =? 120) || (code p =? 88)) then radix 16 ds
          else if (code c =? 48) && ((code p =? 111) || (code p =? 79)) then radix 8 ds
          else if (code c =? 48) && ((code p =? 98) || (code p =? 66)) then radix 2 ds
          else if code c =? 43 then unsignedDecimal l'
          else if code c =? 45 then neg (unsignedDecimal l')
          else unsignedDecimal l
      | [] => unsignedDecimal l
      end
  end.

Definition Number (v : option string) : jsnum :=
  match v with
  | None => NaN
  | Some s => StringToNumber s
  end.

(** A query-string value when it is truthy: [undefined] and the empty
    string are falsy. *)
Definition if_truthy (v : option string) : option string :=
  match v with
  | None | Some "" => None
  | Some s => Some s
  end.

(** [v === s] for a string [s]. *)
Definition strict_eq (v : option string) (s : string) : bool :=
  match v with
  | Some x => String.eqb x s
  | None => false
  end.

(** [v || d] where [v] is [undefined] or a count. *)
Definition or_count (v : option nat) (d : nat) : nat :=
  match v with
  | Some (S n) => S n
  | Some O | None => d
  end.

End JS.

(* ================================================================== *)
(** ** What a handler does: it answers, or it throws *)
(* ================================================================== *)

(** The errors of [../errors], and the store's own validation error. *)
Inductive Error : Type :=
  | BadRequestError (message : string)
  | NotFoundError (message : string)
  | UnauthenticatedError (message : string)
  | ValidationError.

Inductive outcome (A : Type) : Type :=
  | Ok (a : A)
  | Throw (e : Error).
Arguments Ok {A} a.
Arguments Throw {A} e.

(* ================================================================== *)
(** ** The document store *)
(* ================================================================== *)

Module Mongo.

(** An identifier, by its spelling: the 24 hexadecimal digits the store
    prints it with. *)
Definition ObjectId : Type := string.

(** [mongoose.Types.ObjectId(s)]: the identifier that [s] spells. *)
Definition Types_ObjectId (s : string) : ObjectId := s.

(** A string that is the spelling of an identifier.  Mongoose casts the
    [_id] of a filter to an identifier and throws a [CastError] when the
    value spells none; the handlers that take an identifier from the request
    are modelled for the requests whose identifier is spelled so. *)
Definition isHexDigit (c : ascii) : bool :=
  let n := JS.code c in
  ((48 <=? n) && (n <=? 57)) || ((97 <=? n) && (n <=? 102)).

Definition spells_ObjectId (s : string) : bool :=
  (String.length s =? 24)%nat && forallb isHexDigit (list_ascii_of_string s).

(** *** [$regex] with [$options: "i"]

    The store matches with PCRE, which is a parameter of the model (see
    [Job.Store]).  What is defined here is the meaning of the patterns made
    of literal ASCII characters and [.] only: matching is unanchored and
    caseless on ASCII letters, and [.] is any character but a line feed.
    [compile] answers [None] on every other pattern. *)
Inductive atom : Type :=
  | Lit (c : ascii)
  | AnyChar.

Definition isMeta (c : ascii) : bool :=
  existsb (Ascii.eqb c) (list_ascii_of_string "\^$.[]|()?*+{}").

Definition compile_atom (c : ascii) : option atom :=
  if JS.code c =? 46 then Some AnyChar
  else if isMeta c || (127 <? JS.code c) then None
  else Some (Lit c).

Definition compile (pattern : string) : option (list atom) :=
  mapM compile_atom (list_ascii_of_string pattern).

Definition lower (c : ascii) : ascii :=
  let n := JS.code c in
  if (65 <=? n) && (n <=? 90) then ascii_of_N (Z.to_N (n + 32)) else c.

Definition atom_matches (a : atom) (c : ascii) : bool :=
  match a with
  | Lit x => Ascii.eqb (lower x) (lower c)
  | AnyChar => negb (JS.code c =? 10)
  end.

(** The pattern matches a prefix of the subject. *)
Fixpoint match_here (p : list atom) (s : list ascii) : bool :=
  match p, s with
  | [], _ => true
  | a :: p', c :: s' => atom_matches a c && match_here p' s'
  | _ :: _, [] => false
  end.

(** The pattern matches somewhere in the subject. *)
Fixpoint match_anywhere (p : list atom) (s : list ascii) : bool :=
  match_here p s ||
  match s with
  | [] => false
  | _ :: s' => match_anywhere p s'
  end.

Definition regex_test (p : list atom) (subject : string) : bool :=
  match_anywhere p (list_ascii_of_string subject).

(** *** [$year] and [$month] of a date

    A date is a count of milliseconds since 1970-01-01T00:00:00Z; the
    operators read it in UTC on the proleptic Gregorian calendar. *)
Definition msPerDay : Z := 86400000.

(** Year and month (1 to 12) of the day [days] days after 1970-01-01, by
    eras of 400 years that start on a first of March. *)
Definition civil_from_days (days : Z) : Z * Z :=
  let z := days + 719468 in
  let era := z / 146097 in
  let doe := z - era * 146097 in
  let yoe := (doe - doe / 1460 + doe / 36524 - doe / 146096) / 365 in
  let doy := doe - (365 * yoe + yoe / 4 - yoe / 100) in
  let mp := (5 * doy + 2) / 153 in
  let m := if mp <? 10 then mp + 3 else mp - 9 in
  let y := yoe + era * 400 in
  (if m <=? 2 then y + 1 else y, m).

Definition year (date : Z) : Z := fst (civil_from_days (date / msPerDay)).
Definition month (date : Z) : Z := snd (civil_from_days (date / msPerDay)).

(** *** Cursor and pipeline stages *)

(** [.skip(skip).limit(limit)] on the ordered matches, for integers.  The
    store rejects a negative skip ([None]); a limit of zero is no limit, and
    of a negative limit the driver sends the magnitude, to be answered in one
    batch.  This cursor rejects a number that is no integer. *)
Definition skip_limit {A : Type} (skip limit : JS.jsnum) (l : list A) : option (list A) :=
  match JS.as_Z skip, JS.as_Z limit with
  | Some s, Some n =>
      if 0 <=? s then
        let rest := drop (Z.to_nat s) l in
        Some (if n =? 0 then rest else take (Z.abs_nat n) rest)
      else None
  | _, _ => None
  end.

(** [{ $group: { _id: key, count: { $sum: 1 } } }]: one group for each key
    that occurs, with the number of documents that have it.  The store
    promises no order of the groups; here they come by first occurrence. *)
Definition group_count {A K : Type} `{EqDecision K} (key : A → K) (docs : list A)
  : list (K * nat) :=
  map (λ k, (k, length (filter (λ d, key d = k) docs))) (remove_dups (map key docs)).

End Mongo.

(* ================================================================== *)
(** ** [moment] *)
(* ================================================================== *)

Module Moment.

Definition monthsShort : list string :=
  ["Jan"; "Feb"; "Mar"; "Apr"; "May"; "Jun"; "Jul"; "Aug"; "Sep"; "Oct"; "Nov"; "Dec"].

Definition decimal (n : Z) : string :=
  DecimalString.NilZero.string_of_uint (N.to_uint (Z.to_N n)).

(** The [Y] token: four digits at least up to 9999, a sign and the digits
    beyond.  (Releases of the library differ on the padding, which shows
    before the year 1000 only.) *)
Definition format_Y (y : Z) : string :=
  if 9999 <? y then "+" ++ decimal y
  else
    let digits := decimal (Z.abs y) in
    (if y <? 0 then "-" else "") ++
    string_of_list_ascii (replicate (4 - String.length digits) "0"%char) ++ digits.

(** [moment().month(month).year(year).format("MMM Y")]: the month setter
    keeps the day within the month it sets, so the two setters leave the
    month and the year they were given, whatever the day it is called on.
    [month] counts from zero and wraps around the year. *)
Definition format_MMM_Y (month year : Z) : string :=
  nth (Z.to_nat (month mod 12)) monthsShort "" ++ " " ++ format_Y year.

End Moment.

(* ================================================================== *)
(** ** The request *)
(* ================================================================== *)

(** [req.query]: each parameter is absent or a string.  (A parameter that
    is repeated or written with brackets reaches the handler as an array or
    an object; such requests are not modelled.) *)
Record QueryString : Type := {
  q_search : option string;
  q_status : option string;
  q_jobType : option string;
  q_sort : option string;
  q_page : option string;
  q_limit : option string;
}.

(** [req.body] of the job routes: each field is absent or a string. *)
Record Body : Type := {
  b_company : option string;
  b_position : option string;
  b_status : option string;
  b_jobType : option string;
  b_createdBy : option Mongo.ObjectId;
}.

(** [req]: [query], [body], [user.userId] as the authentication middleware
    set it, and [params.id]. *)
Record Request : Type := {
  query : QueryString;
  body : Body;
  userId : Mongo.ObjectId;
  params_id : Mongo.ObjectId;
}.

(** The request with [createdBy] in its body as the client supplied it. *)
Definition supplied_createdBy (v : option Mongo.ObjectId) (req : Request) : Request :=
  {| query := query req;
     body := {| b_company := b_company (body req); b_position := b_position (body req);
                b_status := b_status (body req); b_jobType := b_jobType (body req);
                b_createdBy := v |};
     userId := userId req; params_id := params_id req |}.

(** The request as another user would send it. *)
Definition sent_by (user : Mongo.ObjectId) (req : Request) : Request :=
  {| query := query req; body := body req; userId := user; params_id := params_id req |}.

(** The request about another job. *)
Definition about (id : Mongo.ObjectId) (req : Request) : Request :=
  {| query := query req; body := body req; userId := userId req; params_id := id |}.

(** [req.body.createdBy = id]. *)
Definition set_createdBy (id : Mongo.ObjectId) (b : Body) : Body :=
  {| b_company := b_company b; b_position := b_position b; b_status := b_status b;
     b_jobType := b_jobType b; b_createdBy := Some id |}.

(* ================================================================== *)
(** ** The [Job] model *)
(* ================================================================== *)

Module Job.

(** A document of the collection.  The collection is a list of them, in
    the store's natural order. *)
Record doc : Type := {
  _id : Mongo.ObjectId;
  company : string;
  position : string;
  status : string;
  jobType : string;
  createdBy : Mongo.ObjectId;
  createdAt : Z;
}.

(** A filter object over the fields the handlers filter on; [c_position]
    is the pattern of [{ $regex: pattern, $options: "i" }]. *)
Record conditions : Type := {
  c_id : option Mongo.ObjectId;
  c_createdBy : option Mongo.ObjectId;
  c_position : option string;
  c_status : option string;
  c_jobType : option string;
}.

Definition no_conditions : conditions :=
  {| c_id := None; c_createdBy := None; c_position := None; c_status := None; c_jobType := None |}.

Definition set_id (v : Mongo.ObjectId) (c : conditions) : conditions :=
  {| c_id := Some v; c_createdBy := c_createdBy c; c_position := c_position c;
     c_status := c_status c; c_jobType := c_jobType c |}.
Definition set_createdBy (v : Mongo.ObjectId) (c : conditions) : conditions :=
  {| c_id := c_id c; c_createdBy := Some v; c_position := c_position c;
     c_status := c_status c; c_jobType := c_jobType c |}.
Definition set_position (pattern : string) (c : conditions) : conditions :=
  {| c_id := c_id c; c_createdBy := c_createdBy c; c_position := Some pattern;
     c_status := c_status c; c_jobType := c_jobType c |}.
Definition set_status (v : string) (c : conditions) : conditions :=
  {| c_id := c_id c; c_createdBy := c_createdBy c; c_position := c_position c;
     c_status := Some v; c_jobType := c_jobType c |}.
Definition set_jobType (v : string) (c : conditions) : conditions :=
  {| c_id := c_id c; c_createdBy := c_createdBy c; c_position := c_position c;
     c_status := c_status c; c_jobType := Some v |}.

(** An equality condition on a field, when the filter has one. *)
Definition equals (c : option string) (v : string) : bool :=
  match c with
  | None => true
  | Some x => String.eqb x v
  end.

(** The conditions other than the one on [position]. *)
Definition matches_fields (c : conditions) (d : doc) : bool :=
  equals (c_id c) (_id d) && equals (c_createdBy c) (createdBy d) &&
  equals (c_status c) (status d) && equals (c_jobType c) (jobType d).

(** The argument of [.sort(...)]: a field name, with [-] in front for
    descending order.  Dates compare as instants, strings by code points. *)
Inductive field : Type := createdAt_field | position_field.
Inductive sort_arg : Type :=
  | Asc (f : field)
  | Desc (f : field).

Definition field_le (f : field) (a b : doc) : Prop :=
  match f with
  | createdAt_field => createdAt a ≤ createdAt b
  | position_field => String.leb (position a) (position b) = true
  end.

Definition sort_le (s : sort_arg) : relation doc :=
  match s with
  | Asc f => field_le f
  | Desc f => flip (field_le f)
  end.

#[global] Instance field_le_dec f a b : Decision (field_le f a b).
Proof. destruct f; simpl; apply _. Defined.

#[global] Instance sort_le_dec s a b : Decision (sort_le s a b).
Proof. destruct s; simpl; apply _. Defined.

(** What the queries of the handlers leave to the store.
    - [regex pattern] is the pattern compiled for caseless matching, as a
      test on the subject, or [None] when the store rejects the pattern, in
      which case the query fails;
    - [sorted s l] is [l] in the order [s]; the store promises no order
      among documents whose sort keys are equal;
    - [cursor skip limit l] is what a cursor over [l] yields after
      [.skip(skip).limit(limit)], or [None] when the store rejects the two
      numbers. *)
Record Store : Type := {
  regex : string → option (string → bool);
  sorted : sort_arg → list doc → list doc;
  cursor : JS.jsnum → JS.jsnum → list doc → option (list doc);
}.

(** A document matches a filter when it meets every condition of it. *)
Definition matcher (S : Store) (c : conditions) : option (doc → bool) :=
  match c_position c with
  | None => Some (matches_fields c)
  | Some pattern =>
      test ← regex S pattern;
      Some (λ d, matches_fields c d && test (position d))
  end.

(** A query under construction: [Job.find(filter)] and what is chained to it. *)
Record Query : Type := {
  filter_of : conditions;
  sort_of : option sort_arg;
  skip_of : option JS.jsnum;
  limit_of : option JS.jsnum;
}.

Definition find (c : conditions) : Query :=
  {| filter_of := c; sort_of := None; skip_of := None; limit_of := None |}.
Definition sort (s : sort_arg) (q : Query) : Query :=
  {| filter_of := filter_of q; sort_of := Some s; skip_of := skip_of q; limit_of := limit_of q |}.
Definition skip (n : JS.jsnum) (q : Query) : Query :=
  {| filter_of := filter_of q; sort_of := sort_of q; skip_of := Some n; limit_of := limit_of q |}.
Definition limit (n : JS.jsnum) (q : Query) : Query :=
  {| filter_of := filter_of q; sort_of := sort_of q; skip_of := skip_of q; limit_of := Some n |}.

(** The matches of a filter, in natural order. *)
Definition matching (f : doc → bool) (docs : list doc) : list doc :=
  filter (λ d, f d = true) docs.

(** The matches in the order the query asks for: the natural order when
    it asks for none. *)
Definition ordered (S : Store) (s : option sort_arg) (l : list doc) : list doc :=
  match s with
  | None => l
  | Some s => sorted S s l
  end.

(** [await query]: filter, sort, skip, limit; [None] when the store rejects
    the query. *)
Definition exec (S : Store) (q : Query) (docs : list doc) : option (list doc) :=
  f ← matcher S (filter_of q);
  cursor S (default (JS.of_Z 0) (skip_of q)) (default (JS.of_Z 0) (limit_of q))
    (ordered S (sort_of q) (matching f docs)).

Definition countDocuments (S : Store) (c : conditions) (docs : list doc) : option nat :=
  f ← matcher S c;
  Some (length (matching f docs)).

(** [findOne(filter)] for a filter without a pattern: the first match, or [null]. *)
Definition findOne (c : conditions) (docs : list doc) : option doc :=
  head (matching (matches_fields c) docs).

(** [{ $match: { createdBy: id } }]. *)
Definition match_createdBy (id : Mongo.ObjectId) (docs : list doc) : list doc :=
  filter (λ d, createdBy d = id) docs.

(** Modelled from the spec: the schema of [models/Job.js], which is not
    among the sources.  [company] and [position] are non-empty text;
    [status] and [jobType] are one of their enumerated values, [pending] and
    [full-time] when absent; [createdBy] is required and does not change
    after creation; the identifier and [createdAt] are assigned at creation. *)
Definition statuses : list string := ["pending"; "interview"; "declined"].
Definition jobTypes : list string := ["full-time"; "part-time"; "remote"; "internship"].

Definition non_empty (v : option string) : bool :=
  match v with
  | Some s => negb (String.eqb s "")
  | None => true
  end.

Definition one_of (values : list string) (v : option string) : bool :=
  match v with
  | Some s => existsb (String.eqb s) values
  | None => true
  end.

(** The validators, on the fields a body has. *)
Definition valid (b : Body) : bool :=
  non_empty (b_company b) && non_empty (b_position b) &&
  one_of statuses (b_status b) && one_of jobTypes (b_jobType b).

(** [Job.create(body)] with the identifier and the time the store assigns:
    the new document, and the collection with it. *)
Definition create (id : Mongo.ObjectId) (now : Z) (b : Body) (docs : list doc)
  : outcome (doc * list doc) :=
  match b_company b, b_position b, b_createdBy b with
  | Some c, Some p, Some u =>
      if valid b then
        let d := {| _id := id; company := c; position := p;
                    status := default "pending" (b_status b);
                    jobType := default "full-time" (b_jobType b);
                    createdBy := u; createdAt := now |} in
        Ok (d, (docs ++ [d])%list)
      else Throw ValidationError
  | _, _, _ => Throw ValidationError
  end.

(** [$set] of the fields the body has. *)
Definition apply_update (b : Body) (d : doc) : doc :=
  {| _id := _id d;
     company := default (company d) (b_company b);
     position := default (position d) (b_position b);
     status := default (status d) (b_status b);
     jobType := default (jobType d) (b_jobType b);
     createdBy := createdBy d;
     createdAt := createdAt d |}.

(** Replace the first document that [f] accepts by its update. *)
Fixpoint update_first (f : doc → bool) (b : Body) (docs : list doc) : list doc * option doc :=
  match docs with
  | [] => ([], None)
  | d :: docs' =>
      if f d then (apply_update b d :: docs', Some (apply_update b d))
      else let '(docs'', r) := update_first f b docs' in (d :: docs'', r)
  end.

(** [findOneAndUpdate(filter, body, { new: true, runValidators: true })]
    for a filter without a pattern: the validators run on the body first;
    then the first match is updated and returned as updated, or [null] when
    there is none. *)
Definition findOneAndUpdate (c : conditions) (b : Body) (docs : list doc)
  : outcome (list doc * option doc) :=
  if valid b then Ok (update_first (matches_fields c) b docs)
  else Throw ValidationError.

(** The first argument of [findByIdAndUpdate] is an identifier.  The handler
    hands it an object with the properties [_id] and [createdBy]. *)
Inductive id_arg : Type :=
  | id_value (id : Mongo.ObjectId)
  | id_object (_id createdBy : Mongo.ObjectId).

(** Mongoose casts the argument to the type of [_id]: of an object that has
    an [_id] property it takes that property, and nothing else. *)
Definition castObjectId (a : id_arg) : Mongo.ObjectId :=
  match a with
  | id_value id => id
  | id_object id _ => id
  end.

(** [findByIdAndUpdate(id, body, options)] is
    [findOneAndUpdate({ _id: id }, body, options)]. *)
Definition findByIdAndUpdate (id : id_arg) (b : Body) (docs : list doc)
  : outcome (list doc * option doc) :=
  findOneAndUpdate (set_id (castObjectId id) no_conditions) b docs.

(** Take out the first document that [f] accepts. *)
Fixpoint remove_first (f : doc → bool) (docs : list doc) : list doc * option doc :=
  match docs with
  | [] => ([], None)
  | d :: docs' =>
      if f d then (docs', Some d)
      else let '(docs'', r) := remove_first f docs' in (d :: docs'', r)
  end.

(** [findOneAndRemove(filter)] for a filter without a pattern: the first
    match is removed and returned, or [null] when there is none. *)
Definition findOneAndRemove (c : conditions) (docs : list doc) : list doc * option doc :=
  remove_first (matches_fields c) docs.

(** [findByIdAndRemove(id)] is [findOneAndRemove({ _id: id })], with the
    argument cast as for [findByIdAndUpdate]. *)
Definition findByIdAndRemove (id : id_arg) (docs : list doc) : list doc * option doc :=
  findOneAndRemove (set_id (castObjectId id) no_conditions) docs.

End Job.

(* ================================================================== *)
(** ** [controllers/jobs.js] *)
(* ================================================================== *)

Module Jobs.

(** The body of the answer of [getAllJobs]. *)
Record JobsResponse : Type := {
  jobs : list Job.doc;
  totalJobs : nat;
  numOfPages : JS.jsnum;
}.

(** [queryObject] as [getAllJobs] builds it: the owner first, then one
    condition for each parameter that asks for one. *)
Definition queryObject (req : Request) : Job.conditions :=
  let queryObject := Job.set_createdBy (userId req) Job.no_conditions in
  let queryObject :=
    match JS.if_truthy (q_search (query req)) with
    | Some search => Job.set_position search queryObject
    | None => queryObject
    end in
  let queryObject :=
    match JS.if_truthy (q_status (query req)) with
    | Some status =>
        if negb (String.eqb status "all") then Job.set_status status queryObject
        else queryObject
    | None => queryObject
    end in
  match JS.if_truthy (q_jobType (query req)) with
  | Some jobType =>
      if negb (String.eqb jobType "all") then Job.set_jobType jobType queryObject
      else queryObject
  | None => queryObject
  end.

(** [result] after the four tests on [sort]. *)
Definition sorted_result (req : Request) : Job.Query :=
  let sort := q_sort (query req) in
  let result := Job.find (queryObject req) in
  let result :=
    if JS.strict_eq sort "latest" then Job.sort (Job.Desc Job.createdAt_field) result
    else result in
  let result :=
    if JS.strict_eq sort "oldest" then Job.sort (Job.Asc Job.createdAt_field) result
    else result in
  let result :=
    if JS.strict_eq sort "a-z" then Job.sort (Job.Asc Job.position_field) result
    else result in
  if JS.strict_eq sort "z-a" then Job.sort (Job.Desc Job.position_field) result
  else result.

Definition page (req : Request) : JS.jsnum :=
  JS.or (JS.Number (q_page (query req))) (JS.of_Z 1).

Definition limit (req : Request) : JS.jsnum :=
  JS.or (JS.Number (q_limit (query req))) (JS.of_Z 10).

Definition skip (req : Request) : JS.jsnum :=
  JS.mul (JS.sub (page req) (JS.of_Z 1)) (limit req).

(** [getAllJobs]: the answer sent with status 200, or [None] when the store
    rejects one of the two queries and the handler throws. *)
Definition getAllJobs (S : Job.Store) (db : list Job.doc) (req : Request)
  : option JobsResponse :=
  let result := sorted_result req in
  let result := Job.limit (limit req) (Job.skip (skip req) result) in
  jobs ← Job.exec S result db;
  totalJobs ← Job.countDocuments S (queryObject req) db;
  let numOfPages := JS.Math_ceil (JS.div (JS.of_nat totalJobs) (limit req)) in
  Some {| jobs := jobs; totalJobs := totalJobs; numOfPages := numOfPages |}.

(** [getJob], for a [params.id] that spells an identifier: the job, sent
    with status 200. *)
Definition getJob (db : list Job.doc) (req : Request) : outcome Job.doc :=
  let jobId := params_id req in
  match Job.findOne (Job.set_createdBy (userId req) (Job.set_id jobId Job.no_conditions)) db with
  | None => Throw (NotFoundError ("No job with id " ++ jobId))
  | Some job => Ok job
  end.

(** [createJob], given the identifier and the time the store assigns: the
    collection afterwards, and the job sent with status 201. *)
Definition createJob (id : Mongo.ObjectId) (now : Z) (db : list Job.doc) (req : Request)
  : list Job.doc * outcome Job.doc :=
  let body := set_createdBy (userId req) (body req) in
  match Job.create id now body db with
  | Ok (job, db') => (db', Ok job)
  | Throw e => (db, Throw e)
  end.

(** [updateJob], for a [params.id] that spells an identifier: the collection
    afterwards, and the job sent with status 200. *)
Definition updateJob (db : list Job.doc) (req : Request) : list Job.doc * outcome Job.doc :=
  let company := b_company (body req) in
  let position := b_position (body req) in
  let jobId := params_id req in
  if JS.strict_eq company "" || JS.strict_eq position "" then
    (db, Throw (BadRequestError "Company or Position fields cannot be empty"))
  else
    match Job.findByIdAndUpdate (Job.id_object jobId (userId req)) (body req) db with
    | Throw e => (db, Throw e)
    | Ok (db', None) => (db', Throw (NotFoundError ("No job with id " ++ jobId)))
    | Ok (db', Some job) => (db', Ok job)
    end.

(** [deleteJob], for a [params.id] that spells an identifier: the
    collection afterwards, and the empty answer sent with status 200. *)
Definition deleteJob (db : list Job.doc) (req : Request) : list Job.doc * outcome unit :=
  let jobId := params_id req in
  match Job.findByIdAndRemove (Job.id_object jobId (userId req)) db with
  | (db', None) => (db', Throw (NotFoundError ("No job with id " ++ jobId)))
  | (db', Some job) => (db', Ok tt)
  end.

Record DefaultStats : Type := {
  pending : nat;
  interview : nat;
  declined : nat;
}.

Record MonthlyApplication : Type := {
  date : string;
  count : nat;
}.

Record StatsResponse : Type := {
  defaultStats : DefaultStats;
  monthlyApplications : list MonthlyApplication;
}.

(** The first pipeline: the user's jobs grouped by [status], counted. *)
Definition stats_groups (db : list Job.doc) (req : Request) : list (string * nat) :=
  Mongo.group_count Job.status (Job.match_createdBy (Mongo.Types_ObjectId (userId req)) db).

(** [stats.reduce(...)]: an object with one property for each group. *)
Definition stats_object (groups : list (string * nat)) : gmap string nat :=
  foldl (λ acc curr, let '(title, count) := curr in <[title := count]> acc) ∅ groups.

(** [{ $sort: { "_id.year": -1, "_id.month": -1 } }]: later years first,
    and within a year later months first. *)
Definition newest_first (a b : Z * Z * nat) : Prop :=
  let '(ya, ma, _) := a in
  let '(yb, mb, _) := b in
  yb < ya ∨ (yb = ya ∧ mb ≤ ma).

#[global] Instance newest_first_dec a b : Decision (newest_first a b).
Proof. destruct a as [[ya ma] ca], b as [[yb mb] cb]; simpl; apply _. Defined.

(** The second pipeline: the user's jobs grouped by year and month of
    [createdAt], counted, the latest six groups. *)
Definition monthly_groups (db : list Job.doc) (req : Request) : list (Z * Z * nat) :=
  take 6
    (merge_sort newest_first
       (Mongo.group_count (λ d, (Mongo.year (Job.createdAt d), Mongo.month (Job.createdAt d)))
          (Job.match_createdBy (Mongo.Types_ObjectId (userId req)) db))).

(** A group as the front end expects it. *)
Definition monthly_item (item : Z * Z * nat) : MonthlyApplication :=
  let '(year, month, count) := item in
  {| date := Moment.format_MMM_Y (month - 1) year; count := count |}.

(** [showStats]: the answer sent with status 200. *)
Definition showStats (db : list Job.doc) (req : Request) : StatsResponse :=
  let stats := stats_object (stats_groups db req) in
  let defaultStats :=
    {| pending := JS.or_count (stats !! "pending") 0;
       interview := JS.or_count (stats !! "interview") 0;
       declined := JS.or_count (stats !! "declined") 0 |} in
  let monthlyApplications := rev (map monthly_item (monthly_groups db req)) in
  {| defaultStats := defaultStats; monthlyApplications := monthlyApplications |}.

End Jobs.

(* ================================================================== *)
(** ** [controllers/auth.js]: [login] *)
(* ================================================================== *)

Module Auth.

(** A document of the [User] collection; [password] is what the model stored. *)
Record User : Type := {
  email : string;
  name : string;
  lastName : string;
  location : string;
  password : string;
}.

(** [req.body] of the login route. *)
Record Credentials : Type := {
  c_email : option string;
  c_password : option string;
}.

(** The [user] object of the answer. *)
Record UserJson : Type := {
  j_email : string;
  j_lastName : string;
  j_location : string;
  j_name : string;
  j_token : string;
}.

(** [User.findOne({ email })]. *)
Definition findOne (e : string) (users : list User) : option User :=
  head (filter (λ u, email u = e) users).

Section login.

(** The methods of [models/User.js], which is not among the sources. *)
Variable comparePassword : User → string → bool.
Variable createJWT : User → string.

Definition login (users : list User) (body : Credentials) : outcome UserJson :=
  match JS.if_truthy (c_email body), JS.if_truthy (c_password body) with
  | Some email, Some password =>
      match findOne email users with
      | None => Throw (UnauthenticatedError "Invalid Credentials")
      | Some user =>
          let isPasswordCorrect := comparePassword user password in
          if negb isPasswordCorrect then Throw (UnauthenticatedError "Invalid Credentials")
          else
            let token := createJWT user in
            Ok {| j_email := Auth.email user; j_lastName := lastName user;
                  j_location := location user; j_name := name user; j_token := token |}
      end
  | _, _ => Throw (BadRequestError "Please provide email and password")
  end.

End login.

End Auth.

(* ================================================================== *)
(** ** The orders the specification names *)
(* ================================================================== *)

Definition createdAt_descending (a b : Job.doc) : Prop := Job.createdAt b ≤ Job.createdAt a.
Definition createdAt_ascending (a b : Job.doc) : Prop := Job.createdAt a ≤ Job.createdAt b.
Definition position_ascending (a b : Job.doc) : Prop :=
  String.leb (Job.position a) (Job.position b) = true.
Definition position_descending (a b : Job.doc) : Prop :=
  String.leb (Job.position b) (Job.position a) = true.

(* ================================================================== *)
(** ** Substrings, as the specification words the search *)
(* ================================================================== *)

Definition lower_string (s : string) : list ascii :=
  map Mongo.lower (list_ascii_of_string s).

(** [needle] occurs in [hay] as a substring, letter case aside. *)
Definition contains_ignoring_case (needle hay : string) : Prop :=
  ∃ before after, lower_string hay = (before ++ lower_string needle ++ after)%list.

(** Text in which no character is an operator of the pattern language. *)
Definition plain_text (s : string) : Prop :=
  Forall (λ c, Mongo.isMeta c = false ∧ JS.code c ≤ 127) (list_ascii_of_string s).

(* ================================================================== *)
(** ** What is known of the store *)
(* ================================================================== *)

(** The laws of a store.
    - A pattern that is plain text matches the subjects that contain it,
      letter case aside, which is what [Mongo.compile] makes of it.
    - Sorting rearranges the documents, and puts them in the order asked
      for.
    - What a cursor yields are documents of the sequence it runs over, in
      the order they have there.
    - With a skip that is a natural number and a limit that is a positive
      integer, it yields the [limit] documents that follow the first [skip],
      or as many as there are. *)
Record StoreLaws (S : Job.Store) : Prop := {
  regex_plain s :
    plain_text s → Job.regex S s = Mongo.regex_test <$> Mongo.compile s;
  sorted_Permutation s l :
    Job.sorted S s l ≡ₚ l;
  sorted_StronglySorted s l :
    StronglySorted (Job.sort_le s) (Job.sorted S s l);
  cursor_sublist skip limit l l' :
    Job.cursor S skip limit l = Some l' → l' `sublist_of` l;
  cursor_window (s n : nat) l :
    (1 ≤ n)%nat → Z.of_nat s < 2 ^ 53 → Z.of_nat n < 2 ^ 53 →
    Job.cursor S (JS.of_Z (Z.of_nat s)) (JS.of_Z (Z.of_nat n)) l = Some (take n (drop s l));
}.

(* ================================================================== *)
(** ** What the parameters of a request ask for *)
(* ================================================================== *)


(** The sequence [seq] has the matches [natural] in the order that the
    [sort] parameter asks for. *)
Definition in_order_asked (sort : option string) (natural seq : list Job.doc) : Prop :=
  (sort = Some "latest" → StronglySorted createdAt_descending seq) ∧
  (sort = Some "oldest" → StronglySorted createdAt_ascending seq) ∧
  (sort = Some "a-z" → StronglySorted position_ascending seq) ∧
  (sort = Some "z-a" → StronglySorted position_descending seq) ∧
  (sort ∉ [Some "latest"; Some "oldest"; Some "a-z"; Some "z-a"] → seq = natural).

(** The value [x] of a field passes the parameter [v]: [v] is absent, empty
    or [all], or it is [x]. *)
Definition passes (v : option string) (x : string) : Prop :=
  v = None ∨ v = Some "" ∨ v = Some "all" ∨ v = Some x.

#[global] Instance passes_dec v x : Decision (passes v x).
Proof. unfold passes. apply _. Defined.

(* ================================================================== *)
(** ** Months, as the specification words the trend *)
(* ================================================================== *)

(** The year and month a job was created in. *)
Definition bucket (d : Job.doc) : Z * Z :=
  (Mongo.year (Job.createdAt d), Mongo.month (Job.createdAt d)).

(** Month [a] is before month [b]. *)
Definition earlier (a b : Z * Z) : Prop :=
  a.1 < b.1 ∨ (a.1 = b.1 ∧ a.2 < b.2).

(* ================================================================== *)
(** ** Sample data *)
(* ================================================================== *)

Module Sample.

Definition alice : Mongo.ObjectId := "650000000000000000000a11".
Definition bob : Mongo.ObjectId := "650000000000000000000b0b".
Definition carol : Mongo.ObjectId := "650000000000000000000c01".

Definition no_query : QueryString :=
  {| q_search := None; q_status := None; q_jobType := None; q_sort := None;
     q_page := None; q_limit := None |}.

Definition no_body : Body :=
  {| b_company := None; b_position := None; b_status := None; b_jobType := None;
     b_createdBy := None |}.

(** A request of [user] with the query string [q]. *)
Definition asks (user : Mongo.ObjectId) (q : QueryString) : Request :=
  {| query := q; body := no_body; userId := user; params_id := "" |}.

(** A request of [user] about the job [id], with the body [b]. *)
Definition sends (user id : Mongo.ObjectId) (b : Body) : Request :=
  {| query := no_query; body := b; userId := user; params_id := id |}.

Definition job (id position status owner : string) (at_ : Z) : Job.doc :=
  {| Job._id := id; Job.company := "Acme"; Job.position := position; Job.status := status;
     Job.jobType := "full-time"; Job.createdBy := owner; Job.createdAt := at_ |}.

(** 2023-11-14, 2023-12-25, 2024-01-01 and 2024-01-15, in UTC. *)
Definition j1 : Job.doc := job "6f0000000000000000000001" "dev" "pending" alice 1700000000000.
Definition j2 : Job.doc := job "6f0000000000000000000002" "Ops" "interview" alice 1703500000000.
Definition j3 : Job.doc := job "6f0000000000000000000003" "qa" "pending" bob 1704067200000.
Definition j4 : Job.doc := job "6f0000000000000000000004" "Dev lead" "declined" alice 1705300000000.

Definition db : list Job.doc := [j1; j2; j3; j4].

(** A store: the patterns of [Mongo.compile], a merge sort, and the cursor
    [Mongo.skip_limit]. *)
Definition store : Job.Store :=
  {| Job.regex := λ pattern, Mongo.regex_test <$> Mongo.compile pattern;
     Job.sorted := λ s, merge_sort (Job.sort_le s);
     Job.cursor := Mongo.skip_limit |}.

Definition paged (page limit : option string) : QueryString :=
  {| q_search := None; q_status := None; q_jobType := None; q_sort := None;
     q_page := page; q_limit := limit |}.

Definition sorted_by (sort : option string) : QueryString :=
  {| q_search := None; q_status := None; q_jobType := None; q_sort := sort;
     q_page := None; q_limit := None |}.




Definition searching (search : string) : QueryString :=
  {| q_search := Some search; q_status := None; q_jobType := None; q_sort := None;
     q_page := None; q_limit := None |}.

(** Jobs of Alice in eight months, June 2023 to March 2024, two of them in
    January 2024 and none in December 2023 or February 2024, and one of Bob. *)
Definition eight_months : list Job.doc :=
  map (λ '(id, at_), job id "dev" "pending" alice at_)
    [("7b0000000000000000000001", 1699963200000); ("7b0000000000000000000002", 1686398400000);
     ("7b0000000000000000000003", 1706616000000); ("7b0000000000000000000004", 1692532800000);
     ("7b0000000000000000000005", 1710504000000); ("7b0000000000000000000006", 1688472000000);
     ("7b0000000000000000000007", 1704196800000); ("7b0000000000000000000008", 1698753600000);
     ("7b0000000000000000000009", 1693569600000)]
  ++ [job "7b000000000000000000000a" "qa" "pending" bob 1710504000000].

(** Alice renames the company of a job of Bob. *)
Definition foreign_update : Request :=
  sends alice (Job._id j3)
    {| b_company := Some "Initech"; b_position := None; b_status := None;
       b_jobType := None; b_createdBy := None |}.

(** Alice marks her job [j2] as declined. *)
Definition decline_j2 : Request :=
  sends alice (Job._id j2)
    {| b_company := None; b_position := None; b_status := Some "declined";
       b_jobType := None; b_createdBy := None |}.

(** A user, and stand-ins for the two methods of the user model. *)
Definition ann : Auth.User :=
  {| Auth.email := "ann@example.com"; Auth.name := "Ann"; Auth.lastName := "Lee";
     Auth.location := "Oslo"; Auth.password := "correct horse" |}.

Definition same_password (u : Auth.User) (candidate : string) : bool :=
  String.eqb (Auth.password u) candidate.

Definition some_token (u : Auth.User) : string := "token of " ++ Auth.email u.

Definition credentials (email password : string) : Auth.Credentials :=
  {| Auth.c_email := Some email; Auth.c_password := Some password |}.

(** Alice creates a job and names Bob as its owner. *)
Definition forged_create : Request :=
  sends alice ""
    {| b_company := Some "Initech"; b_position := Some "sre"; b_status := None;
       b_jobType := None; b_createdBy := Some bob |}.

End Sample.

(* ================================================================== *)
(** * Properties *)
(* ================================================================== *)

(** ** The models of the language and of the libraries, on samples *)

Example Number_samples :
  map JS.Number [None; Some ""; Some "abc"; Some "12"; Some " 7 "; Some "-1";
                 Some "0"; Some "-0"; Some "1.5"; Some ".5"; Some "5."; Some ".";
                 Some "1e2"; Some "0x1f"; Some "+0x1f"; Some "Infinity"; Some "-Infinity";
                 Some "12px"; Some "1e"; Some "0.0"; Some "2e-1";
                 Some "1e400"; Some "-1e400"; Some "1e-400"; Some "9007199254740993"]
  = [JS.NaN; JS.Fin 0; JS.NaN; JS.Fin 12; JS.Fin 7; JS.Fin (-1);
     JS.Fin 0; JS.Fin 0; JS.Fin (3 # 2); JS.Fin (1 # 2); JS.Fin 5; JS.NaN;
     JS.Fin 100; JS.Fin 31; JS.NaN; JS.PInf; JS.NInf;
     JS.NaN; JS.NaN; JS.Fin 0; JS.Fin (3602879701896397 # 18014398509481984);
     JS.PInf; JS.NInf; JS.Fin 0; JS.Fin 9007199254740992].
Proof. vm_compute. reflexivity. Qed.

Example year_month_samples :
  map (λ d, (Mongo.year d, Mongo.month d))
      [0; 86399999; -1; 951782400000; 951868800000; 1700000000000; 1704067199999; 1704067200000]
  = [(1970, 1); (1970, 1); (1969, 12); (2000, 2); (2000, 3); (2023, 11); (2023, 12); (2024, 1)].
Proof. vm_compute. reflexivity. Qed.

Example format_samples :
  [Moment.format_MMM_Y 10 2023; Moment.format_MMM_Y 0 999; Moment.format_MMM_Y 11 10000]
  = ["Nov 2023"; "Jan 0999"; "Dec +10000"].
Proof. vm_compute. reflexivity. Qed.

(** ** Doubles *)











Lemma Qsign_zero q : JS.Qsign q = 0 ↔ (q == 0)%Q.
Proof.
  unfold JS.Qsign, Qeq. simpl. rewrite Z.sgn_null_iff. lia.
Qed.

Lemma truthy_false n : JS.truthy n = false ↔ JS.nan_or_zero n.
Proof.
  unfold JS.nan_or_zero. destruct n as [| | |q]; simpl.
  - split; [by left | done].
  - split; [done | intros [|(? & ? & _)]; done].
  - split; [done | intros [|(? & ? & _)]; done].
  - rewrite negb_false_iff, Z.eqb_eq, Qsign_zero. split.
    + intros H. right. by exists q.
    + intros [|(q' & [= <-] & H)]; done.
Qed.

Lemma or_fallback n d : JS.nan_or_zero n → JS.or n d = d.
Proof. intros H%truthy_false. unfold JS.or. by rewrite H. Qed.




(** ** The store: filters, order, windows *)

Lemma equals_true c v : Job.equals c v = true ↔ ∀ x, c = Some x → x = v.
Proof.
  destruct c as [x|]; simpl.
  - rewrite String.eqb_eq. split; [intros -> y [= <-]; done | eauto].
  - split; [intros _ x [=] | done].
Qed.

Lemma matches_fields_createdBy c u d :
  Job.c_createdBy c = Some u → Job.matches_fields c d = true → Job.createdBy d = u.
Proof.
  intros Hc Hm. unfold Job.matches_fields in Hm.
  repeat (apply andb_prop in Hm as [Hm ?]).
  symmetry. eapply equals_true; eauto.
Qed.

(** A matcher accepts only what the conditions on the fields accept. *)
Lemma matcher_fields S c f d :
  Job.matcher S c = Some f → f d = true → Job.matches_fields c d = true.
Proof.
  unfold Job.matcher. destruct (Job.c_position c) as [pattern|]; simpl.
  - destruct (Job.regex S pattern) as [test|]; simpl; [|done].
    intros [= <-] Hf. by apply andb_prop in Hf as [? _].
  - by intros [= <-].
Qed.

Lemma elem_of_matching f db d : d ∈ Job.matching f db ↔ f d = true ∧ d ∈ db.
Proof. unfold Job.matching. by rewrite list_elem_of_filter. Qed.

Lemma string_leb_trans a b c :
  String.leb a b = true → String.leb b c = true → String.leb a c = true.
Proof.
  unfold String.leb. revert b c.
  induction a as [|x a IH]; intros [|y b] [|z c]; simpl; try done.
  unfold Ascii.compare.
  destruct (N.compare_spec (N_of_ascii x) (N_of_ascii y)) as [Hxy|Hxy|Hxy];
    destruct (N.compare_spec (N_of_ascii y) (N_of_ascii z)) as [Hyz|Hyz|Hyz];
    destruct (N.compare_spec (N_of_ascii x) (N_of_ascii z)) as [Hxz|Hxz|Hxz];
    try done; try lia.
  apply IH.
Qed.

#[local] Instance field_le_total f : Total (Job.field_le f).
Proof.
  intros a b. destruct f; simpl; [lia | apply String.leb_total].
Qed.

#[local] Instance field_le_trans f : Transitive (Job.field_le f).
Proof.
  intros a b c. destruct f; simpl; [lia | apply string_leb_trans].
Qed.

#[local] Instance sort_le_total s : Total (Job.sort_le s).
Proof.
  destruct s as [f|f]; simpl; [apply _|].
  intros a b. unfold flip. destruct (total (Job.field_le f) a b); auto.
Qed.

#[local] Instance sort_le_trans s : Transitive (Job.sort_le s).
Proof.
  destruct s as [f|f]; simpl; [apply _|].
  intros a b c Hab Hbc. unfold flip in *. by etrans.
Qed.

Lemma StronglySorted_sublist {A} (R : relation A) (l1 l2 : list A) :
  l1 `sublist_of` l2 → StronglySorted R l2 → StronglySorted R l1.
Proof.
  induction 1 as [|x l1 l2 Hsub IH|x l1 l2 Hsub IH]; intros Hs.
  - constructor.
  - apply StronglySorted_inv in Hs as [Hs Hall]. constructor; [by apply IH|].
    eapply Forall_forall. intros y Hy. eapply Forall_forall in Hall; [exact Hall|].
    eapply elem_of_sublist; eauto.
  - apply StronglySorted_inv in Hs as [Hs _]. by apply IH.
Qed.

Lemma as_Z_of_Z z : JS.as_Z (JS.of_Z z) = Some z.
Proof.
  unfold JS.as_Z, JS.of_Z. simpl. by rewrite Z.mod_1_r, Z.div_1_r.
Qed.

Lemma skip_limit_sublist {A} skip limit (l l' : list A) :
  Mongo.skip_limit skip limit l = Some l' → l' `sublist_of` l.
Proof.
  unfold Mongo.skip_limit.
  destruct (JS.as_Z skip) as [s|]; [|done].
  destruct (JS.as_Z limit) as [n|]; [|done].
  destruct (0 <=? s); [|done]. intros [= <-].
  destruct (n =? 0).
  - apply sublist_drop.
  - etrans; [apply sublist_take | apply sublist_drop].
Qed.

(** The sample store keeps the laws. *)
Lemma store_laws : StoreLaws Sample.store.
Proof.
  split; simpl.
  - done.
  - intros s l. apply merge_sort_Permutation.
  - intros s l. apply StronglySorted_merge_sort; apply _.
  - apply @skip_limit_sublist.
  - intros s n l Hn _ _. unfold Mongo.skip_limit. rewrite !as_Z_of_Z.
    replace (0 <=? Z.of_nat s) with true by (symmetry; apply Z.leb_le; lia).
    replace (Z.of_nat n =? 0) with false by (symmetry; apply Z.eqb_neq; lia).
    by rewrite Zabs2Nat.id, Nat2Z.id.
Qed.

Section store.

Context (S : Job.Store) (laws : StoreLaws S).

Lemma ordered_Permutation s l : Job.ordered S s l ≡ₚ l.
Proof. destruct s; simpl; [apply (sorted_Permutation S laws) | done]. Qed.

Lemma ordered_StronglySorted s l : StronglySorted (Job.sort_le s) (Job.ordered S (Some s) l).
Proof. apply (sorted_StronglySorted S laws). Qed.

End store.

(** ** [getAllJobs], step by step *)

Lemma queryObject_createdBy req :
  Job.c_createdBy (Jobs.queryObject req) = Some (userId req).
Proof.
  unfold Jobs.queryObject.
  destruct (JS.if_truthy (q_search (query req)));
    destruct (JS.if_truthy (q_status (query req))) as [st|];
    destruct (JS.if_truthy (q_jobType (query req))) as [jt|]; simpl;
    try destruct (negb (String.eqb st "all"));
    try destruct (negb (String.eqb jt "all")); reflexivity.
Qed.

Lemma sorted_result_filter req :
  Job.filter_of (Jobs.sorted_result req) = Jobs.queryObject req.
Proof.
  unfold Jobs.sorted_result.
  repeat match goal with |- context [JS.strict_eq ?a ?b] => destruct (JS.strict_eq a b) end;
    reflexivity.
Qed.

(** The answer of [getAllJobs], read off its definition. *)
Lemma getAllJobs_inv S db req r :
  Jobs.getAllJobs S db req = Some r →
  ∃ f, Job.matcher S (Jobs.queryObject req) = Some f ∧
       Job.cursor S (Jobs.skip req) (Jobs.limit req)
         (Job.ordered S (Job.sort_of (Jobs.sorted_result req)) (Job.matching f db))
       = Some (Jobs.jobs r) ∧
       Jobs.totalJobs r = length (Job.matching f db) ∧
       Jobs.numOfPages r =
         JS.Math_ceil (JS.div (JS.of_nat (length (Job.matching f db))) (Jobs.limit req)).
Proof.
  unfold Jobs.getAllJobs, Job.exec. simpl. rewrite sorted_result_filter. intros H.
  destruct (Job.matcher S (Jobs.queryObject req)) as [f|] eqn:Hf; simpl in H; [|done].
  destruct (Job.cursor S _ _ _) as [l|] eqn:Hwin; simpl in H; [|done].
  unfold Job.countDocuments in H. rewrite Hf in H. simpl in H.
  injection H as <-. exists f. simpl. done.
Qed.

(** The converse: when the store takes the pattern and the window. *)
Lemma getAllJobs_intro S db req f l :
  Job.matcher S (Jobs.queryObject req) = Some f →
  Job.cursor S (Jobs.skip req) (Jobs.limit req)
    (Job.ordered S (Job.sort_of (Jobs.sorted_result req)) (Job.matching f db)) = Some l →
  Jobs.getAllJobs S db req =
    Some {| Jobs.jobs := l;
            Jobs.totalJobs := length (Job.matching f db);
            Jobs.numOfPages :=
              JS.Math_ceil (JS.div (JS.of_nat (length (Job.matching f db))) (Jobs.limit req)) |}.
Proof.
  intros Hf Hwin. unfold Jobs.getAllJobs, Job.exec, Job.countDocuments. simpl.
  rewrite sorted_result_filter, Hf. simpl. rewrite Hwin. reflexivity.
Qed.

(** Every job of an answer is a match of the filter. *)
Lemma getAllJobs_jobs S db req r f :
  StoreLaws S →
  Jobs.getAllJobs S db req = Some r → Job.matcher S (Jobs.queryObject req) = Some f →
  Forall (λ d, f d = true ∧ d ∈ db) (Jobs.jobs r).
Proof.
  intros laws (f' & Hf' & Hwin & _)%getAllJobs_inv Hf.
  rewrite Hf in Hf'. injection Hf' as <-.
  apply Forall_forall. intros d Hd.
  eapply elem_of_sublist in Hd; [|by eapply cursor_sublist].
  rewrite ordered_Permutation in Hd by done. by apply elem_of_matching.
Qed.

(** ** Owner scoping *)

Lemma createJob_inv id now db req db' job :
  Jobs.createJob id now db req = (db', Ok job) →
  Job.createdBy job = userId req ∧ Job._id job = id ∧ Job.createdAt job = now ∧
  db' = (db ++ [job])%list.
Proof.
  unfold Jobs.createJob, Job.create. simpl.
  destruct (b_company (body req)), (b_position (body req)); try by intros [= ??].
  destruct (Job.valid _); intros [= <- <-]; done.
Qed.

(** C1.  Whatever the request parameters, and whatever the store makes of
    them, every job that [getAllJobs] answers with has [createdBy] equal to
    the authenticated user of the request; a job that [createJob] creates has
    [createdBy] equal to the authenticated user, it is what is added to the
    collection, and a [createdBy] supplied in the body changes nothing of
    what [createJob] does. *)
Theorem owner_scoping S db req :
  StoreLaws S →
  (∀ r, Jobs.getAllJobs S db req = Some r →
        Forall (λ d, Job.createdBy d = userId req) (Jobs.jobs r)) ∧
  (∀ id now db' job, Jobs.createJob id now db req = (db', Ok job) →
        Job.createdBy job = userId req ∧ db' = (db ++ [job])%list) ∧
  (∀ id now supplied,
        Jobs.createJob id now db (supplied_createdBy supplied req) = Jobs.createJob id now db req).
Proof.
  intros laws. split; [|split].
  - intros r Hr. destruct (getAllJobs_inv _ _ _ _ Hr) as (f & Hf & _).
    eapply Forall_impl; [exact (getAllJobs_jobs _ _ _ _ _ laws Hr Hf)|].
    intros d [Hd _]. simpl.
    eapply matches_fields_createdBy; [apply queryObject_createdBy|].
    eapply matcher_fields; eauto.
  - intros id now db' job H. apply createJob_inv in H. tauto.
  - reflexivity.
Qed.

Lemma owner_scoping_witness :
  (∃ r, Jobs.getAllJobs Sample.store Sample.db (Sample.asks Sample.alice Sample.no_query)
        = Some r ∧
        Jobs.jobs r = [Sample.j1; Sample.j2; Sample.j4] ∧
        Forall (λ d, Job.createdBy d = Sample.alice) (Jobs.jobs r)) ∧
  (∃ db' job,
      Jobs.createJob "6f0000000000000000000005" 1706000000000 Sample.db Sample.forged_create
      = (db', Ok job) ∧
      Job.createdBy job = Sample.alice ∧ db' = (Sample.db ++ [job])%list).
Proof.
  split.
  - eexists. split; [vm_compute; reflexivity|]. split; [reflexivity|].
    exact (proj1 (owner_scoping Sample.store Sample.db
                    (Sample.asks Sample.alice Sample.no_query) store_laws) _ eq_refl).
  - eexists _, _. split; [reflexivity|].
    exact (proj1 (proj2 (owner_scoping Sample.store Sample.db Sample.forged_create store_laws))
             _ _ _ _ eq_refl).
Defined.

(** ** Coercion of [page] and [limit] *)

(** C3, as the code has it.  A [page] that is absent, not numeric ([Number]
    gives [NaN]) or numerically zero is taken as 1, and such a [limit] as 10;
    a request whose [page] and [limit] both are so is not rejected: it is
    answered, with the first ten of the ordered matches, whenever the store
    takes its filter. *)
Theorem pagination_fallback S db req :
  StoreLaws S →
  (JS.nan_or_zero (JS.Number (q_page (query req))) → Jobs.page req = JS.of_Z 1) ∧
  (JS.nan_or_zero (JS.Number (q_limit (query req))) → Jobs.limit req = JS.of_Z 10) ∧
  (JS.nan_or_zero (JS.Number (q_page (query req))) →
   JS.nan_or_zero (JS.Number (q_limit (query req))) →
   ∀ f, Job.matcher S (Jobs.queryObject req) = Some f →
        ∃ r, Jobs.getAllJobs S db req = Some r ∧
             Jobs.jobs r =
               take 10 (Job.ordered S (Job.sort_of (Jobs.sorted_result req)) (Job.matching f db))).
Proof.
  intros laws. unfold Jobs.page, Jobs.limit. repeat split.
  - apply or_fallback.
  - apply or_fallback.
  - intros Hp Hl f Hf.
    erewrite getAllJobs_intro; [eexists; split; reflexivity | exact Hf |].
    unfold Jobs.skip, Jobs.page, Jobs.limit.
    rewrite (or_fallback _ _ Hp), (or_fallback _ _ Hl).
    exact (cursor_window S laws 0 10 _ ltac:(lia) ltac:(done) ltac:(done)).
Qed.

Lemma pagination_fallback_witness :
  let req := Sample.asks Sample.alice (Sample.paged (Some "two") (Some "0")) in
  Jobs.page req = JS.of_Z 1 ∧ Jobs.limit req = JS.of_Z 10 ∧
  ∃ r, Jobs.getAllJobs Sample.store Sample.db req = Some r ∧
       Jobs.jobs r = [Sample.j1; Sample.j2; Sample.j4].
Proof.
  intros req.
  destruct (pagination_fallback Sample.store Sample.db req store_laws) as (Hp & Hl & Hr).
  assert (JS.nan_or_zero (JS.Number (q_page (query req)))) as Hpage by (by left).
  assert (JS.nan_or_zero (JS.Number (q_limit (query req)))) as Hlimit.
  { right. exists 0%Q. split; reflexivity. }
  split; [exact (Hp Hpage)|]. split; [exact (Hl Hlimit)|].
  destruct (Hr Hpage Hlimit _ eq_refl) as (r & Hr1 & Hr2).
  exists r. split; [exact Hr1 | exact Hr2].
Defined.

(** C3 as stated fails: a negative [page] is not taken as 1 (and the store
    is then asked to skip a negative number of documents), and a negative
    [limit] is not taken as 10. *)
Lemma negative_page_and_limit_are_kept :
  let req1 := Sample.asks Sample.alice (Sample.paged (Some "-1") None) in
  let req2 := Sample.asks Sample.alice (Sample.paged None (Some "-5")) in
  (JS.Number (q_page (query req1)) = JS.of_Z (-1) ∧
   Jobs.page req1 = JS.of_Z (-1) ∧ Jobs.page req1 ≠ JS.of_Z 1 ∧
   Jobs.skip req1 = JS.of_Z (-20) ∧ Jobs.getAllJobs Sample.store Sample.db req1 = None) ∧
  (JS.Number (q_limit (query req2)) = JS.of_Z (-5) ∧
   Jobs.limit req2 = JS.of_Z (-5) ∧ Jobs.limit req2 ≠ JS.of_Z 10).
Proof. vm_compute. repeat split; congruence. Qed.

(** ** Sort resolution *)

Lemma strict_eq_true v s : JS.strict_eq v s = true ↔ v = Some s.
Proof.
  destruct v as [x|]; simpl; [|done].
  rewrite String.eqb_eq. split; [by intros -> | by intros [= ->]].
Qed.

Lemma strict_eq_false v s : JS.strict_eq v s = false ↔ v ≠ Some s.
Proof. rewrite <- strict_eq_true. by destruct (JS.strict_eq v s). Qed.

(** Which sort the four tests of [getAllJobs] leave on the query. *)
Lemma sorted_result_sort req :
  let sort := q_sort (query req) in
  (sort = Some "latest" → Job.sort_of (Jobs.sorted_result req) = Some (Job.Desc Job.createdAt_field)) ∧
  (sort = Some "oldest" → Job.sort_of (Jobs.sorted_result req) = Some (Job.Asc Job.createdAt_field)) ∧
  (sort = Some "a-z" → Job.sort_of (Jobs.sorted_result req) = Some (Job.Asc Job.position_field)) ∧
  (sort = Some "z-a" → Job.sort_of (Jobs.sorted_result req) = Some (Job.Desc Job.position_field)) ∧
  (sort ∉ [Some "latest"; Some "oldest"; Some "a-z"; Some "z-a"] →
   Job.sort_of (Jobs.sorted_result req) = None).
Proof.
  unfold Jobs.sorted_result. simpl. repeat split.
  1-4: intros ->; reflexivity.
  intros Hno.
  repeat match goal with
  | |- context [JS.strict_eq ?a ?b] =>
      let E := fresh in
      destruct (JS.strict_eq a b) eqn:E;
      [apply strict_eq_true in E; exfalso; apply Hno; rewrite E; set_solver|]
  end.
  reflexivity.
Qed.

(** The sequence a query runs its cursor over is in the order the request
    asks for. *)
Lemma ordered_in_order_asked S req l :
  StoreLaws S →
  in_order_asked (q_sort (query req)) l
    (Job.ordered S (Job.sort_of (Jobs.sorted_result req)) l).
Proof.
  intros laws.
  destruct (sorted_result_sort req) as (Hl & Ho & Ha & Hz & Hn).
  repeat split; intros H.
  - rewrite (Hl H). exact (ordered_StronglySorted S laws (Job.Desc Job.createdAt_field) l).
  - rewrite (Ho H). exact (ordered_StronglySorted S laws (Job.Asc Job.createdAt_field) l).
  - rewrite (Ha H). exact (ordered_StronglySorted S laws (Job.Asc Job.position_field) l).
  - rewrite (Hz H). exact (ordered_StronglySorted S laws (Job.Desc Job.position_field) l).
  - by rewrite (Hn H).
Qed.

(** C2, as the code has it.  The jobs answered are what the cursor yields of
    a sequence that holds the matches of the filter, each once.  With [sort]
    equal to [latest] that sequence is in descending order of [createdAt],
    with [oldest] in ascending order of [createdAt], with [a-z] in ascending
    and with [z-a] in descending order of [position], and so then are the
    jobs answered.  With [sort] absent or any other value no sort is applied:
    the sequence is the matches in the store's natural order. *)
Theorem sort_resolution S db req r :
  StoreLaws S →
  Jobs.getAllJobs S db req = Some r →
  ∃ f seq,
    Job.matcher S (Jobs.queryObject req) = Some f ∧
    seq ≡ₚ Job.matching f db ∧
    Job.cursor S (Jobs.skip req) (Jobs.limit req) seq = Some (Jobs.jobs r) ∧
    Jobs.jobs r `sublist_of` seq ∧
    (q_sort (query req) = Some "latest" →
       StronglySorted createdAt_descending seq ∧ StronglySorted createdAt_descending (Jobs.jobs r)) ∧
    (q_sort (query req) = Some "oldest" →
       StronglySorted createdAt_ascending seq ∧ StronglySorted createdAt_ascending (Jobs.jobs r)) ∧
    (q_sort (query req) = Some "a-z" →
       StronglySorted position_ascending seq ∧ StronglySorted position_ascending (Jobs.jobs r)) ∧
    (q_sort (query req) = Some "z-a" →
       StronglySorted position_descending seq ∧ StronglySorted position_descending (Jobs.jobs r)) ∧
    (q_sort (query req) ∉ [Some "latest"; Some "oldest"; Some "a-z"; Some "z-a"] →
       seq = Job.matching f db).
Proof.
  intros laws (f & Hf & Hwin & _)%getAllJobs_inv.
  exists f, (Job.ordered S (Job.sort_of (Jobs.sorted_result req)) (Job.matching f db)).
  split; [exact Hf|]. split; [by apply ordered_Permutation|]. split; [exact Hwin|].
  pose proof (cursor_sublist S laws _ _ _ _ Hwin) as Hsub. split; [exact Hsub|].
  destruct (ordered_in_order_asked S req (Job.matching f db) laws) as (Hl & Ho & Ha & Hz & Hn).
  repeat (split; [intros H; split; [auto | eapply StronglySorted_sublist; [exact Hsub | auto]]|]).
  exact Hn.
Qed.

Lemma sort_resolution_witness :
  ∃ r, Jobs.getAllJobs Sample.store Sample.db
         (Sample.asks Sample.alice (Sample.sorted_by (Some "latest"))) = Some r ∧
       Jobs.jobs r = [Sample.j4; Sample.j2; Sample.j1] ∧
       StronglySorted createdAt_descending (Jobs.jobs r).
Proof.
  eexists. split; [vm_compute; reflexivity|]. split; [reflexivity|].
  destruct (sort_resolution Sample.store Sample.db
              (Sample.asks Sample.alice (Sample.sorted_by (Some "latest"))) _ store_laws eq_refl)
    as (f & seq & _ & _ & _ & _ & Hlatest & _).
  exact (proj2 (Hlatest eq_refl)).
Defined.

(** C2 as stated fails: on a collection whose natural order is oldest
    first, a request without [sort], or with a [sort] that is none of the
    four, is answered oldest first, and not in the order of [latest]. *)
Lemma unsorted_is_not_latest :
  let absent := Sample.asks Sample.alice (Sample.sorted_by None) in
  let unknown := Sample.asks Sample.alice (Sample.sorted_by (Some "newest")) in
  let latest := Sample.asks Sample.alice (Sample.sorted_by (Some "latest")) in
  Jobs.jobs <$> Jobs.getAllJobs Sample.store Sample.db absent
    = Some [Sample.j1; Sample.j2; Sample.j4] ∧
  Jobs.jobs <$> Jobs.getAllJobs Sample.store Sample.db unknown
    = Some [Sample.j1; Sample.j2; Sample.j4] ∧
  Jobs.jobs <$> Jobs.getAllJobs Sample.store Sample.db latest
    = Some [Sample.j4; Sample.j2; Sample.j1] ∧
  Jobs.jobs <$> Jobs.getAllJobs Sample.store Sample.db absent
    ≠ Jobs.jobs <$> Jobs.getAllJobs Sample.store Sample.db latest ∧
  Jobs.jobs <$> Jobs.getAllJobs Sample.store Sample.db unknown
    ≠ Jobs.jobs <$> Jobs.getAllJobs Sample.store Sample.db latest.
Proof. vm_compute. repeat split; congruence. Qed.

(** ** Pages *)






(** ** Totals *)






(** ** The window *)



(** C5 as stated fails for a [limit] below zero: with [limit] at [-5] and
    no [page], [skip] is 0 and no index is from [skip] up to [skip + limit],
    yet the answer has the three jobs of the requester, the driver having
    asked the store for five. *)
Lemma negative_limit_fills_the_page :
  let req := Sample.asks Sample.alice (Sample.paged None (Some "-5")) in
  Jobs.skip req = JS.of_Z 0 ∧ Jobs.limit req = JS.of_Z (-5) ∧
  Jobs.jobs <$> Jobs.getAllJobs Sample.store Sample.db req
    = Some [Sample.j1; Sample.j2; Sample.j4] ∧
  ¬ ∃ i : Z, 0 ≤ i < 0 + -5.
Proof.
  split; [vm_compute; reflexivity|]. split; [vm_compute; reflexivity|].
  split; [vm_compute; reflexivity|]. intros [i Hi]. lia.
Qed.

(** ** The conditions of [queryObject] *)

Lemma if_truthy_Some v s : JS.if_truthy v = Some s ↔ v = Some s ∧ s ≠ "".
Proof.
  destruct v as [[|c t]|]; simpl; split; try done.
  - by intros [[= <-] ?].
  - by intros [= <-].
  - by intros [[= <-] _].
  - by intros [? _].
Qed.

Lemma param_condition v x :
  Job.equals
    (match JS.if_truthy v with
     | Some s => if negb (String.eqb s "all") then Some s else None
     | None => None
     end) x = true ↔ passes v x.
Proof.
  unfold passes. destruct (JS.if_truthy v) as [s|] eqn:Hv.
  - apply if_truthy_Some in Hv as [-> Hne].
    destruct (String.eqb_spec s "all") as [->|Hall]; simpl.
    + split; [auto | done].
    + rewrite String.eqb_eq. split; [intros <-; auto|].
      intros [|[[= ?]|[[= ?]|[= ?]]]]; done.
  - simpl. split; [|done]. intros _.
    destruct v as [[|c t]|]; [auto | done | auto].
Qed.

Lemma queryObject_position req :
  Job.c_position (Jobs.queryObject req) = JS.if_truthy (q_search (query req)).
Proof.
  unfold Jobs.queryObject.
  destruct (JS.if_truthy (q_search (query req)));
    destruct (JS.if_truthy (q_status (query req))) as [st|];
    destruct (JS.if_truthy (q_jobType (query req))) as [jt|]; simpl;
    try destruct (negb (String.eqb st "all"));
    try destruct (negb (String.eqb jt "all")); reflexivity.
Qed.

Lemma queryObject_status req :
  Job.c_status (Jobs.queryObject req)
  = match JS.if_truthy (q_status (query req)) with
    | Some s => if negb (String.eqb s "all") then Some s else None
    | None => None
    end.
Proof.
  unfold Jobs.queryObject.
  destruct (JS.if_truthy (q_search (query req)));
    destruct (JS.if_truthy (q_status (query req))) as [st|];
    destruct (JS.if_truthy (q_jobType (query req))) as [jt|]; simpl;
    try destruct (negb (String.eqb st "all"));
    try destruct (negb (String.eqb jt "all")); reflexivity.
Qed.

Lemma queryObject_jobType req :
  Job.c_jobType (Jobs.queryObject req)
  = match JS.if_truthy (q_jobType (query req)) with
    | Some s => if negb (String.eqb s "all") then Some s else None
    | None => None
    end.
Proof.
  unfold Jobs.queryObject.
  destruct (JS.if_truthy (q_search (query req)));
    destruct (JS.if_truthy (q_status (query req))) as [st|];
    destruct (JS.if_truthy (q_jobType (query req))) as [jt|]; simpl;
    try destruct (negb (String.eqb st "all"));
    try destruct (negb (String.eqb jt "all")); reflexivity.
Qed.

Lemma queryObject_id req : Job.c_id (Jobs.queryObject req) = None.
Proof.
  unfold Jobs.queryObject.
  destruct (JS.if_truthy (q_search (query req)));
    destruct (JS.if_truthy (q_status (query req))) as [st|];
    destruct (JS.if_truthy (q_jobType (query req))) as [jt|]; simpl;
    try destruct (negb (String.eqb st "all"));
    try destruct (negb (String.eqb jt "all")); reflexivity.
Qed.

(** The conditions of [queryObject] other than the search. *)
Lemma queryObject_fields req d :
  Job.matches_fields (Jobs.queryObject req) d = true ↔
  Job.createdBy d = userId req ∧
  passes (q_status (query req)) (Job.status d) ∧
  passes (q_jobType (query req)) (Job.jobType d).
Proof.
  unfold Job.matches_fields.
  rewrite queryObject_id, queryObject_createdBy, queryObject_status, queryObject_jobType.
  simpl. rewrite !andb_true_iff, !param_condition, String.eqb_eq.
  split; [intros [[Hu ?] ?] | intros (Hu & ? & ?)]; rewrite Hu; done.
Qed.

(** ** The search filter *)

Lemma compile_plain s :
  plain_text s → Mongo.compile s = Some (map Mongo.Lit (list_ascii_of_string s)).
Proof.
  unfold plain_text, Mongo.compile. generalize (list_ascii_of_string s) as l.
  induction l as [|c l IH]; intros Hall; [done|].
  apply Forall_cons in Hall as [[Hmeta Hcode] Hall].
  cbn [mapM]. rewrite (IH Hall). unfold Mongo.compile_atom. rewrite Hmeta.
  replace (127 <? JS.code c) with false by (symmetry; apply Z.ltb_ge; lia).
  destruct (JS.code c =? 46) eqn:E; [|done].
  apply Z.eqb_eq in E. exfalso.
  assert (c = "."%char) as ->; [|done].
  unfold JS.code in E. rewrite <- (ascii_N_embedding c).
  replace (N_of_ascii c) with 46%N by lia. reflexivity.
Qed.

(** A pattern of literals matches at the head when it is a prefix, letter case aside. *)
Lemma match_here_literal (p s : list ascii) :
  Mongo.match_here (map Mongo.Lit p) s = true ↔
  ∃ after, map Mongo.lower s = (map Mongo.lower p ++ after)%list.
Proof.
  revert s. induction p as [|x p IH]; intros s; simpl.
  - split; [intros _; by eexists | done].
  - destruct s as [|c s]; simpl.
    + split; [done | by intros [? ?]].
    + rewrite andb_true_iff, Ascii.eqb_eq, IH. split.
      * intros [-> [after ->]]. by exists after.
      * intros [after [= -> ->]]. split; [done | by exists after].
Qed.

Lemma match_anywhere_literal (p s : list ascii) :
  Mongo.match_anywhere (map Mongo.Lit p) s = true ↔
  ∃ before after, map Mongo.lower s = (before ++ map Mongo.lower p ++ after)%list.
Proof.
  induction s as [|c s IH].
  - cbn [Mongo.match_anywhere]. rewrite orb_false_r, match_here_literal. split.
    + intros [after H]. by exists [], after.
    + intros (before & after & H). destruct before; [by exists after | done].
  - cbn [Mongo.match_anywhere]. rewrite orb_true_iff, match_here_literal, IH. split.
    + intros [[after H] | (before & after & H)].
      * by exists [], after.
      * exists (Mongo.lower c :: before), after. simpl. by rewrite H.
    + intros (before & after & H). destruct before as [|b before].
      * left. by exists after.
      * right. exists before, after. simpl in H. by injection H.
Qed.

Lemma regex_test_plain search hay :
  Mongo.regex_test (map Mongo.Lit (list_ascii_of_string search)) hay = true ↔
  contains_ignoring_case search hay.
Proof. apply match_anywhere_literal. Qed.

(** C6, as the code has it.  With [search] present and not empty the store
    is asked for the documents whose [position] matches [search] taken as a
    pattern, next to the other conditions; [search] is not taken as text.
    When [search] is plain text, with no operator of the pattern language in
    it, the store takes the filter, and the filter keeps exactly the
    requester's documents that pass [status] and [jobType] and whose
    [position] contains [search] as a substring, letter case aside.  With
    [search] absent or empty the store takes the filter, and there is no
    condition on [position].  [totalJobs] counts the documents of the
    collection that the filter keeps, and every job answered is one of them. *)
Theorem search_filter S req :
  StoreLaws S →
  (∀ search, JS.if_truthy (q_search (query req)) = Some search → plain_text search →
     ∃ f, Job.matcher S (Jobs.queryObject req) = Some f ∧
          ∀ d, f d = true ↔
               (Job.createdBy d = userId req ∧
                passes (q_status (query req)) (Job.status d) ∧
                passes (q_jobType (query req)) (Job.jobType d)) ∧
               contains_ignoring_case search (Job.position d)) ∧
  (JS.if_truthy (q_search (query req)) = None →
     ∃ f, Job.matcher S (Jobs.queryObject req) = Some f ∧
          ∀ d, f d = true ↔
               Job.createdBy d = userId req ∧
               passes (q_status (query req)) (Job.status d) ∧
               passes (q_jobType (query req)) (Job.jobType d)) ∧
  (∀ search, JS.if_truthy (q_search (query req)) = Some search →
     Job.matcher S (Jobs.queryObject req)
     = (test ← Job.regex S search;
        Some (λ d, Job.matches_fields (Jobs.queryObject req) d && test (Job.position d)))) ∧
  (∀ db r f, Jobs.getAllJobs S db req = Some r →
     Job.matcher S (Jobs.queryObject req) = Some f →
     Jobs.totalJobs r = length (filter (λ d, f d = true) db) ∧
     Forall (λ d, f d = true ∧ d ∈ db) (Jobs.jobs r)).
Proof.
  intros laws.
  split; [|split; [|split]].
  - intros search Hs Hplain. unfold Job.matcher.
    rewrite queryObject_position, Hs, (regex_plain S laws _ Hplain), (compile_plain _ Hplain).
    eexists. split; [reflexivity|]. intros d. simpl.
    by rewrite andb_true_iff, regex_test_plain, queryObject_fields.
  - intros Hs. unfold Job.matcher. rewrite queryObject_position, Hs.
    eexists. split; [reflexivity|]. intros d. apply queryObject_fields.
  - intros search Hs. unfold Job.matcher. by rewrite queryObject_position, Hs.
  - intros db r f Hr Hf. split; [|by eapply getAllJobs_jobs].
    apply getAllJobs_inv in Hr as (f' & Hf' & _ & Htotal & _).
    rewrite Hf in Hf'. by injection Hf' as <-.
Qed.

Lemma search_filter_witness :
  (∃ r, Jobs.getAllJobs Sample.store Sample.db (Sample.asks Sample.alice (Sample.searching "DEV"))
        = Some r ∧
        Jobs.jobs r = [Sample.j1; Sample.j4]) ∧
  ∃ f, Job.matcher Sample.store
         (Jobs.queryObject (Sample.asks Sample.alice (Sample.searching "DEV"))) = Some f ∧
       ∀ d, f d = true ↔
            (Job.createdBy d = Sample.alice ∧
             passes None (Job.status d) ∧ passes None (Job.jobType d)) ∧
            contains_ignoring_case "DEV" (Job.position d).
Proof.
  split.
  - eexists. split; vm_compute; reflexivity.
  - refine (proj1 (search_filter Sample.store
                     (Sample.asks Sample.alice (Sample.searching "DEV")) store_laws)
              "DEV" eq_refl _).
    unfold plain_text. simpl.
    repeat (apply Forall_cons; split; [split; [reflexivity | by compute]|]).
    apply Forall_nil_2.
Defined.

(** C6 as stated fails: [search] is read as a pattern, so [d.v] keeps the
    jobs whose position has a [d], any character and a [v] in a row, none of
    which contains the text [d.v]. *)
Lemma search_is_a_pattern :
  let req := Sample.asks Sample.alice (Sample.searching "d.v") in
  Jobs.jobs <$> Jobs.getAllJobs Sample.store Sample.db req = Some [Sample.j1; Sample.j4] ∧
  ¬ contains_ignoring_case "d.v" (Job.position Sample.j1) ∧
  ¬ contains_ignoring_case "d.v" (Job.position Sample.j4).
Proof.
  split; [vm_compute; reflexivity|].
  split; intros (before & after & H);
    match type of H with
    | ?hay = _ =>
        assert ("."%char ∈ hay) as Hin
          by (rewrite H, !elem_of_app; right; left; vm_compute; set_solver)
    end;
    vm_compute in Hin;
    repeat (apply elem_of_cons in Hin as [Hin|Hin]; [discriminate|]);
    by apply elem_of_nil in Hin.
Qed.

(** ** [$group] *)

Section group_count.
Context {A K : Type} `{EqDecision K} (key : A → K).

Lemma group_count_keys docs :
  (Mongo.group_count key docs).*1 = remove_dups (map key docs).
Proof.
  unfold Mongo.group_count. rewrite <- list_fmap_compose.
  generalize (remove_dups (map key docs)) as l.
  induction l as [|k l IH]; [done | by simpl; f_equal].
Qed.

Lemma NoDup_group_count docs : NoDup (Mongo.group_count key docs).*1.
Proof. rewrite group_count_keys. apply NoDup_remove_dups. Qed.

(** A group is a key that occurs, with the number of its documents. *)
Lemma elem_of_group_count docs k c :
  (k, c) ∈ Mongo.group_count key docs ↔
  (∃ d, d ∈ docs ∧ key d = k) ∧ c = length (filter (λ d, key d = k) docs).
Proof.
  unfold Mongo.group_count. rewrite list_elem_of_fmap. split.
  - intros (k' & [= -> ->] & Hk). split; [|done].
    apply elem_of_remove_dups, list_elem_of_fmap in Hk as (d & -> & Hd). eauto.
  - intros [(d & Hd & <-) ->]. exists (key d). split; [done|].
    apply elem_of_remove_dups, list_elem_of_fmap. eauto.
Qed.

Lemma group_count_positive docs k c : (k, c) ∈ Mongo.group_count key docs → (1 ≤ c)%nat.
Proof.
  intros [(d & Hd & Hk) ->]%elem_of_group_count.
  assert (d ∈ filter (λ d, key d = k) docs) as Hin by (by apply list_elem_of_filter).
  destruct (filter _ docs); [by apply elem_of_nil in Hin | simpl; lia].
Qed.
End group_count.

(** ** The status report *)

Lemma stats_fold_other (groups : list (string * nat)) (acc : gmap string nat) k :
  k ∉ groups.*1 →
  foldl (λ acc curr, let '(title, count) := curr in <[title := count]> acc) acc groups !! k
  = acc !! k.
Proof.
  revert acc. induction groups as [|[title count] groups IH]; intros acc Hk; [done|].
  simpl in *. apply not_elem_of_cons in Hk as [Hne Hk].
  rewrite IH by done. by rewrite lookup_insert_ne.
Qed.

Lemma stats_fold_group (groups : list (string * nat)) (acc : gmap string nat) k c :
  NoDup groups.*1 → (k, c) ∈ groups →
  foldl (λ acc curr, let '(title, count) := curr in <[title := count]> acc) acc groups !! k
  = Some c.
Proof.
  revert acc. induction groups as [|[title count] groups IH]; intros acc Hnd Hin.
  - by apply elem_of_nil in Hin.
  - simpl in *. apply NoDup_cons in Hnd as [Hfresh Hnd].
    apply elem_of_cons in Hin as [[= <- <-]|Hin].
    + rewrite stats_fold_other by done. by rewrite lookup_insert_eq.
    + by apply IH.
Qed.

(** The property [status] of the object [stats], either way, gives the count. *)
Lemma stats_property db req s :
  JS.or_count (Jobs.stats_object (Jobs.stats_groups db req) !! s) 0
  = length (filter (λ d, Job.status d = s) (filter (λ d, Job.createdBy d = userId req) db)).
Proof.
  unfold Jobs.stats_object, Jobs.stats_groups, Job.match_createdBy, Mongo.Types_ObjectId.
  set (mine := filter (λ d, Job.createdBy d = userId req) db).
  destruct (decide (s ∈ (Mongo.group_count Job.status mine).*1)) as [Hin|Hout].
  - apply list_elem_of_fmap in Hin as ([k c] & -> & Hin). simpl.
    rewrite (stats_fold_group _ _ _ _ (NoDup_group_count _ _) Hin).
    pose proof (group_count_positive _ _ _ _ Hin) as Hpos.
    apply elem_of_group_count in Hin as [_ <-].
    destruct c; [lia | done].
  - rewrite stats_fold_other, lookup_empty by done. simpl.
    destruct (filter _ mine) as [|d l] eqn:E; [done|].
    exfalso. apply Hout. rewrite group_count_keys, elem_of_remove_dups, list_elem_of_fmap.
    assert (d ∈ filter (λ d, Job.status d = s) mine) as Hd by (rewrite E; left).
    apply list_elem_of_filter in Hd as [<- Hd]. eauto.
Qed.

Lemma filter_filter_status (s : string) (known : list string) (db : list Job.doc) u :
  s ∈ known →
  filter (λ d, Job.status d = s)
    (filter (λ d, Job.createdBy d = u) (filter (λ d, Job.status d ∈ known) db))
  = filter (λ d, Job.status d = s) (filter (λ d, Job.createdBy d = u) db).
Proof.
  intros Hs. rewrite !list_filter_filter. apply list_filter_iff.
  intros d. split; [tauto|]. intros [<- Hu]. done.
Qed.

(** C7.  The report has the three counts [pending], [interview] and
    [declined], each the number of the user's jobs with that status, so 0
    where there is none and all 0 for a user without jobs; jobs with any
    other status do not show in it: the report is that of the collection
    without them. *)
Theorem status_report db req :
  let mine := filter (λ d, Job.createdBy d = userId req) db in
  let count s := length (filter (λ d, Job.status d = s) mine) in
  Jobs.defaultStats (Jobs.showStats db req)
  = {| Jobs.pending := count "pending"; Jobs.interview := count "interview";
       Jobs.declined := count "declined" |} ∧
  (mine = [] →
   Jobs.defaultStats (Jobs.showStats db req)
   = {| Jobs.pending := 0; Jobs.interview := 0; Jobs.declined := 0 |}) ∧
  Jobs.defaultStats (Jobs.showStats (filter (λ d, Job.status d ∈ Job.statuses) db) req)
  = Jobs.defaultStats (Jobs.showStats db req).
Proof.
  intros mine count.
  assert (∀ db', Jobs.defaultStats (Jobs.showStats db' req)
    = {| Jobs.pending :=
           length (filter (λ d, Job.status d = "pending")
                     (filter (λ d, Job.createdBy d = userId req) db'));
         Jobs.interview :=
           length (filter (λ d, Job.status d = "interview")
                     (filter (λ d, Job.createdBy d = userId req) db'));
         Jobs.declined :=
           length (filter (λ d, Job.status d = "declined")
                     (filter (λ d, Job.createdBy d = userId req) db')) |}) as Hreport.
  { intros db'. unfold Jobs.showStats. simpl. by rewrite !stats_property. }
  split; [apply Hreport|]. split.
  - intros Hnone. rewrite Hreport. fold mine. by rewrite Hnone.
  - rewrite !Hreport. unfold Job.statuses.
    rewrite !filter_filter_status by set_solver. done.
Qed.

Lemma status_report_witness :
  Jobs.defaultStats (Jobs.showStats Sample.db (Sample.asks Sample.alice Sample.no_query))
  = {| Jobs.pending := 1; Jobs.interview := 1; Jobs.declined := 1 |} ∧
  Jobs.defaultStats (Jobs.showStats Sample.db (Sample.asks Sample.carol Sample.no_query))
  = {| Jobs.pending := 0; Jobs.interview := 0; Jobs.declined := 0 |}.
Proof.
  split.
  - exact (proj1 (status_report Sample.db (Sample.asks Sample.alice Sample.no_query))).
  - exact (proj1 (proj2 (status_report Sample.db
                           (Sample.asks Sample.carol Sample.no_query))) eq_refl).
Defined.

(** ** The monthly trend *)

Lemma month_range date : 1 ≤ Mongo.month date ≤ 12.
Proof.
  unfold Mongo.month, Mongo.civil_from_days. cbv zeta. simpl snd.
  generalize (date / Mongo.msPerDay) as days. intros days.
  match goal with |- context [if ?b then _ else _] => destruct b eqn:E end;
    [apply Z.ltb_lt in E | apply Z.ltb_ge in E];
    revert E; Z.div_mod_to_equations; lia.
Qed.

#[local] Instance newest_first_total : Total Jobs.newest_first.
Proof. intros [[ya ma] ca] [[yb mb] cb]. simpl. lia. Qed.

#[local] Instance newest_first_trans : Transitive Jobs.newest_first.
Proof. intros [[ya ma] ca] [[yb mb] cb] [[yc mc] cc]. simpl. lia. Qed.

Lemma newest_first_strict a b : Jobs.newest_first a b → a.1 ≠ b.1 → earlier b.1 a.1.
Proof.
  destruct a as [[ya ma] ca], b as [[yb mb] cb]. unfold earlier. simpl.
  intros H Hne. destruct (decide (mb = ma)) as [->|]; [|lia].
  destruct (decide (yb = ya)) as [->|]; [done | lia].
Qed.

Lemma elem_of_rev {A} (l : list A) x : x ∈ rev l ↔ x ∈ l.
Proof. by rewrite !list_elem_of_In, <- in_rev. Qed.

Lemma StronglySorted_rev {A} (R : relation A) (l : list A) :
  StronglySorted R l → StronglySorted (flip R) (rev l).
Proof.
  induction 1 as [|x l Hl IH Hx]; simpl; [constructor|].
  apply StronglySorted_app_2; [|done|repeat constructor].
  intros x1 x2 Hx1 ->%list_elem_of_singleton. unfold flip.
  rewrite elem_of_rev in Hx1.
  by eapply Forall_forall in Hx.
Qed.

(** Groups in the order of the pipeline, with distinct keys, are months in
    strictly decreasing order. *)
Lemma newest_first_keys (l : list (Z * Z * nat)) :
  StronglySorted Jobs.newest_first l → NoDup l.*1 →
  StronglySorted (flip earlier) l.*1.
Proof.
  induction 1 as [|x l Hl IH Hx]; simpl; intros Hnd; [constructor|].
  apply NoDup_cons in Hnd as [Hfresh Hnd]. constructor; [by apply IH|].
  apply Forall_forall. intros k (y & -> & Hy)%list_elem_of_fmap.
  apply newest_first_strict.
  - by eapply Forall_forall in Hx.
  - intros Heq. apply Hfresh. rewrite Heq. by apply list_elem_of_fmap_2.
Qed.

(** Rendering the groups and reversing, seen from their keys. *)
Lemma rev_map_keys {K V B} (f : K * V → B) (g : K → B) (l : list (K * V)) :
  (∀ x, x ∈ l → f x = g x.1) → rev (map f l) = map g (rev l.*1).
Proof.
  induction l as [|x l IH]; intros Hfg; [done|].
  change (rev (map f l) ++ [f x] = map g (rev (l.*1) ++ [x.1]))%list.
  rewrite map_app, IH, Hfg; [done | left |].
  intros y Hy. apply Hfg. by right.
Qed.

Lemma monthly_item_spec (mine : list Job.doc) (item : Z * Z * nat) :
  item ∈ Mongo.group_count bucket mine →
  Jobs.monthly_item item
  = {| Jobs.date :=
         nth (Z.to_nat (item.1.2 - 1)) Moment.monthsShort "" ++ " " ++ Moment.format_Y item.1.1;
       Jobs.count := length (filter (λ d, bucket d = item.1) mine) |}.
Proof.
  destruct item as [[y m] c]. intros [(d & _ & Hd) ->]%elem_of_group_count.
  unfold Jobs.monthly_item, Moment.format_MMM_Y. simpl.
  injection Hd as _ <-. pose proof (month_range (Job.createdAt d)).
  by rewrite Z.mod_small by lia.
Qed.

(** C8.  The trend lists months: at most six, each a month in which the
    user has a job, in order from the earliest to the latest; a month of the
    user that is not listed is before all six that are.  Each entry has as
    [count] the number of the user's jobs of that month, and as [date] the
    short name of the month, a space and the year in full.  A user without
    jobs has an empty trend. *)
Theorem monthly_trend db req :
  let mine := filter (λ d, Job.createdBy d = userId req) db in
  ∃ months : list (Z * Z),
    Jobs.monthlyApplications (Jobs.showStats db req)
    = map (λ m, {| Jobs.date :=
                     nth (Z.to_nat (m.2 - 1)) Moment.monthsShort "" ++ " " ++ Moment.format_Y m.1;
                   Jobs.count := length (filter (λ d, bucket d = m) mine) |}) months ∧
    (length months ≤ 6)%nat ∧
    StronglySorted earlier months ∧
    (∀ m, m ∈ months → 1 ≤ m.2 ≤ 12 ∧ ∃ d, d ∈ mine ∧ bucket d = m) ∧
    (∀ d, d ∈ mine →
       bucket d ∈ months ∨
       (length months = 6%nat ∧ ∀ m, m ∈ months → earlier (bucket d) m)) ∧
    (mine = [] → Jobs.monthlyApplications (Jobs.showStats db req) = []).
Proof.
  intros mine.
  set (groups := Mongo.group_count bucket mine).
  set (sorted := merge_sort Jobs.newest_first groups).
  assert (Jobs.monthly_groups db req = take 6 sorted) as Hraw by reflexivity.
  assert (sorted ≡ₚ groups) as Hperm by apply merge_sort_Permutation.
  assert (StronglySorted Jobs.newest_first sorted) as Hsorted
    by (apply StronglySorted_merge_sort; apply _).
  assert (NoDup sorted.*1) as Hnodup.
  { rewrite Hperm. apply NoDup_group_count. }
  assert (∀ item, item ∈ take 6 sorted → item ∈ groups) as Hin.
  { intros item Hitem. rewrite <- Hperm. eapply elem_of_sublist; [exact Hitem|apply sublist_take]. }
  exists (rev (take 6 sorted).*1).
  split; [|split; [|split; [|split; [|split]]]].
  - unfold Jobs.showStats. simpl. rewrite Hraw.
    apply rev_map_keys. intros item Hitem.
    by apply (monthly_item_spec mine), Hin.
  - rewrite length_rev, length_fmap, length_take. lia.
  - apply (StronglySorted_rev (flip earlier)).
    apply newest_first_keys.
    + eapply StronglySorted_sublist; [apply sublist_take | exact Hsorted].
    + eapply sublist_NoDup; [exact Hnodup | apply fmap_sublist, sublist_take].
  - intros m Hm. rewrite elem_of_rev in Hm.
    apply list_elem_of_fmap in Hm as ([k c] & -> & Hitem).
    apply Hin, elem_of_group_count in Hitem as [(d & Hd & <-) _]. simpl.
    split; [apply month_range | by exists d].
  - intros d Hd.
    assert ((bucket d, length (filter (λ d', bucket d' = bucket d) mine)) ∈ sorted) as Hitem.
    { rewrite Hperm. apply elem_of_group_count. split; [by exists d | done]. }
    rewrite <- (take_drop 6 sorted) in Hitem, Hsorted, Hnodup.
    apply elem_of_app in Hitem as [Hitem|Hitem].
    + left. rewrite elem_of_rev.
      by apply (list_elem_of_fmap_2 fst) in Hitem.
    + right. split.
      * rewrite length_rev, length_fmap, length_take.
        destruct (decide (length sorted ≤ 6)%nat) as [Hle|]; [|lia].
        rewrite drop_ge in Hitem by done. by apply elem_of_nil in Hitem.
      * intros m Hm. rewrite elem_of_rev in Hm.
        apply list_elem_of_fmap in Hm as (item & -> & Hm).
        pose proof (StronglySorted_app_1_elem_of _ _ _ _ _ Hsorted Hm Hitem) as Hnf.
        apply newest_first_strict in Hnf; [exact Hnf|].
        rewrite fmap_app in Hnodup. apply NoDup_app in Hnodup as (_ & Hdisj & _).
        intros Heq. eapply Hdisj; [by apply list_elem_of_fmap_2|].
        rewrite Heq. by apply (list_elem_of_fmap_2 fst) in Hitem.
  - intros Hnone. unfold Jobs.showStats, Jobs.monthly_groups, Job.match_createdBy,
      Mongo.Types_ObjectId. simpl. fold mine. by rewrite Hnone.
Qed.

Lemma monthly_trend_witness :
  Jobs.monthlyApplications
    (Jobs.showStats Sample.eight_months (Sample.asks Sample.alice Sample.no_query))
  = [ {| Jobs.date := "Aug 2023"; Jobs.count := 1 |};
      {| Jobs.date := "Sep 2023"; Jobs.count := 1 |};
      {| Jobs.date := "Oct 2023"; Jobs.count := 1 |};
      {| Jobs.date := "Nov 2023"; Jobs.count := 1 |};
      {| Jobs.date := "Jan 2024"; Jobs.count := 2 |};
      {| Jobs.date := "Mar 2024"; Jobs.count := 1 |} ] ∧
  Jobs.monthlyApplications (Jobs.showStats Sample.db (Sample.asks Sample.carol Sample.no_query))
  = [].
Proof.
  split; [vm_compute; reflexivity|].
  destruct (monthly_trend Sample.db (Sample.asks Sample.carol Sample.no_query))
    as (months & _ & _ & _ & _ & _ & Hnone).
  exact (Hnone eq_refl).
Defined.

(** ** [updateJob] *)

(** An update with [company] or [position] empty is refused, and the
    collection is left as it was. *)
Lemma update_rejects_empty_fields db req :
  b_company (body req) = Some "" ∨ b_position (body req) = Some "" →
  Jobs.updateJob db req
  = (db, Throw (BadRequestError "Company or Position fields cannot be empty")).
Proof.
  unfold Jobs.updateJob. intros [H|H]; rewrite H; simpl; [done|].
  by rewrite orb_true_r.
Qed.

Lemma update_first_none f b docs :
  Forall (λ d, f d = false) docs → Job.update_first f b docs = (docs, None).
Proof.
  induction 1 as [|d docs Hd Hall IH]; simpl; [done|]. by rewrite Hd, IH.
Qed.

(** An update of an identifier that no document has signals that there is no such job. *)
Lemma update_unknown_id db req :
  Mongo.spells_ObjectId (params_id req) = true →
  b_company (body req) ≠ Some "" → b_position (body req) ≠ Some "" →
  Job.valid (body req) = true →
  Forall (λ d, Job._id d ≠ params_id req) db →
  Jobs.updateJob db req = (db, Throw (NotFoundError ("No job with id " ++ params_id req))).
Proof.
  intros _ Hc%strict_eq_false Hp%strict_eq_false Hvalid Hnone.
  unfold Jobs.updateJob, Job.findByIdAndUpdate, Job.findOneAndUpdate.
  rewrite Hc, Hp, Hvalid. simpl. rewrite update_first_none; [done|].
  eapply Forall_impl; [exact Hnone|]. intros d Hd. simpl in Hd.
  unfold Job.matches_fields. simpl.
  destruct (String.eqb_spec (params_id req) (Job._id d)) as [Heq|]; [by rewrite Heq in Hd | done].
Qed.

(** Who sends the update plays no part in what [updateJob] does. *)
Lemma update_ignores_sender db req user :
  Jobs.updateJob db (sent_by user req) = Jobs.updateJob db req.
Proof. reflexivity. Qed.

(** C9 fails on the code for a job of another user.  Alice's update of a job
    of Bob is applied and answered with the updated job, where [getJob] on
    the same request signals that there is no such job. *)
Lemma update_reaches_other_owner :
  Job.createdBy Sample.j3 = Sample.bob ∧ userId Sample.foreign_update = Sample.alice ∧
  Jobs.getJob Sample.db Sample.foreign_update
  = Throw (NotFoundError "No job with id 6f0000000000000000000003") ∧
  Jobs.updateJob Sample.db Sample.foreign_update
  = ([Sample.j1; Sample.j2; Job.apply_update (body Sample.foreign_update) Sample.j3; Sample.j4],
     Ok (Job.apply_update (body Sample.foreign_update) Sample.j3)) ∧
  Job.company (Job.apply_update (body Sample.foreign_update) Sample.j3) = "Initech".
Proof. vm_compute. repeat split. Qed.

(** ** [login] *)

(** C10.  A login with an email that no user has, and a login with the email
    of a user and a password that does not compare, both fail with the same
    error, [UnauthenticatedError] with the message [Invalid Credentials]. *)
Theorem login_indistinguishable comparePassword createJWT users unknown known user :
  (∃ e p, JS.if_truthy (Auth.c_email unknown) = Some e ∧
          JS.if_truthy (Auth.c_password unknown) = Some p ∧
          Auth.findOne e users = None) →
  (∃ p, JS.if_truthy (Auth.c_email known) = Some (Auth.email user) ∧
        JS.if_truthy (Auth.c_password known) = Some p ∧
        Auth.findOne (Auth.email user) users = Some user ∧
        comparePassword user p = false) →
  Auth.login comparePassword createJWT users unknown
  = Throw (UnauthenticatedError "Invalid Credentials") ∧
  Auth.login comparePassword createJWT users known
  = Auth.login comparePassword createJWT users unknown.
Proof.
  intros (e & p & He & Hp & Hnone) (p' & He' & Hp' & Hsome & Hwrong).
  unfold Auth.login. rewrite He, Hp, Hnone, He', Hp', Hsome, Hwrong. done.
Qed.

Lemma login_indistinguishable_witness :
  Auth.login Sample.same_password Sample.some_token [Sample.ann]
    (Sample.credentials "eve@example.com" "guess")
  = Throw (UnauthenticatedError "Invalid Credentials") ∧
  Auth.login Sample.same_password Sample.some_token [Sample.ann]
    (Sample.credentials "ann@example.com" "guess")
  = Auth.login Sample.same_password Sample.some_token [Sample.ann]
      (Sample.credentials "eve@example.com" "guess").
Proof.
  apply (login_indistinguishable Sample.same_password Sample.some_token [Sample.ann]
           (Sample.credentials "eve@example.com" "guess")
           (Sample.credentials "ann@example.com" "guess") Sample.ann).
  - exists "eve@example.com", "guess". repeat split.
  - exists "guess". repeat split.
Defined.

(* ================================================================== *)
(** * Further properties of the handlers *)
(* ================================================================== *)

(** ** Filters on the identifier and the owner *)

Lemma id_fields id d :
  Job.matches_fields (Job.set_id id Job.no_conditions) d = true ↔ Job._id d = id.
Proof.
  unfold Job.matches_fields. simpl. rewrite !andb_true_r, String.eqb_eq. split; by intros ->.
Qed.

Lemma id_owner_fields id u d :
  Job.matches_fields (Job.set_createdBy u (Job.set_id id Job.no_conditions)) d = true ↔
  Job._id d = id ∧ Job.createdBy d = u.
Proof.
  unfold Job.matches_fields. simpl.
  rewrite !andb_true_r, andb_true_iff, !String.eqb_eq. split; intros [-> ->]; done.
Qed.

(** ** [getJob] *)



(** ** The [status] and [jobType] parameters *)

(** X2.  Every job that [getAllJobs] answers with has the [status] asked
    for and the [jobType] asked for, where a parameter that is absent, empty
    or [all] asks for nothing; without a search, [totalJobs] is the number of
    the requester's jobs that pass both parameters. *)
Theorem status_and_jobType_filter S db req r :
  StoreLaws S →
  Jobs.getAllJobs S db req = Some r →
  Forall (λ d, passes (q_status (query req)) (Job.status d) ∧
               passes (q_jobType (query req)) (Job.jobType d)) (Jobs.jobs r) ∧
  (JS.if_truthy (q_search (query req)) = None →
   Jobs.totalJobs r
   = length (filter (λ d, Job.createdBy d = userId req ∧
                          passes (q_status (query req)) (Job.status d) ∧
                          passes (q_jobType (query req)) (Job.jobType d)) db)).
Proof.
  intros laws Hr. destruct (getAllJobs_inv _ _ _ _ Hr) as (f & Hf & _ & Htotal & _). split.
  - eapply Forall_impl; [exact (getAllJobs_jobs _ _ _ _ _ laws Hr Hf)|].
    intros d [Hd _]. simpl.
    eapply matcher_fields, queryObject_fields in Hd; [|exact Hf]. tauto.
  - intros Hsearch. rewrite Htotal. unfold Job.matching. f_equal.
    unfold Job.matcher in Hf. rewrite queryObject_position, Hsearch in Hf.
    injection Hf as <-. apply list_filter_iff. intros d. apply queryObject_fields.
Qed.

Lemma status_and_jobType_filter_witness :
  ∃ r, Jobs.getAllJobs Sample.store Sample.db
         (Sample.asks Sample.alice
            {| q_search := None; q_status := Some "pending"; q_jobType := Some "all";
               q_sort := None; q_page := None; q_limit := None |}) = Some r ∧
       Jobs.jobs r = [Sample.j1] ∧ Jobs.totalJobs r = 1%nat ∧
       Forall (λ d, passes (Some "pending") (Job.status d) ∧
                    passes (Some "all") (Job.jobType d)) (Jobs.jobs r).
Proof.
  eexists. split; [vm_compute; reflexivity|]. split; [reflexivity|]. split; [reflexivity|].
  match goal with
  | |- context [Jobs.jobs ?r] =>
      exact (proj1 (status_and_jobType_filter Sample.store Sample.db
               (Sample.asks Sample.alice
                  {| q_search := None; q_status := Some "pending"; q_jobType := Some "all";
                     q_sort := None; q_page := None; q_limit := None |}) r store_laws
               (@eq_refl _ (Some r) <:
                  Jobs.getAllJobs Sample.store Sample.db
                    (Sample.asks Sample.alice
                       {| q_search := None; q_status := Some "pending";
                          q_jobType := Some "all"; q_sort := None; q_page := None;
                          q_limit := None |}) = Some r)))
  end.
Defined.

(** ** The length of a page *)





(** ** The first document with an identifier *)

Lemma update_first_cases f b docs :
  (Forall (λ d, f d = false) docs ∧ Job.update_first f b docs = (docs, None)) ∨
  (∃ before d after,
     docs = (before ++ d :: after)%list ∧ Forall (λ x, f x = false) before ∧ f d = true ∧
     Job.update_first f b docs
     = ((before ++ Job.apply_update b d :: after)%list, Some (Job.apply_update b d))).
Proof.
  induction docs as [|d docs IH]; simpl; [by left|].
  destruct (f d) eqn:Hd.
  - right. exists [], d, docs. by repeat split.
  - destruct IH as [[Hall ->]|(before & x & after & -> & Hall & Hx & ->)].
    + left. split; [by constructor | done].
    + right. exists (d :: before), x, after. repeat split; try done. by constructor.
Qed.

Lemma remove_first_cases f docs :
  (Forall (λ d, f d = false) docs ∧ Job.remove_first f docs = (docs, None)) ∨
  (∃ before d after,
     docs = (before ++ d :: after)%list ∧ Forall (λ x, f x = false) before ∧ f d = true ∧
     Job.remove_first f docs = ((before ++ after)%list, Some d)).
Proof.
  induction docs as [|d docs IH]; simpl; [by left|].
  destruct (f d) eqn:Hd.
  - right. exists [], d, docs. by repeat split.
  - destruct IH as [[Hall ->]|(before & x & after & -> & Hall & Hx & ->)].
    + left. split; [by constructor | done].
    + right. exists (d :: before), x, after. repeat split; try done. by constructor.
Qed.

Lemma update_first_at f b before d after :
  Forall (λ x, f x = false) before → f d = true →
  Job.update_first f b (before ++ d :: after)
  = ((before ++ Job.apply_update b d :: after)%list, Some (Job.apply_update b d)).
Proof.
  induction 1 as [|x before Hx Hall IH]; intros Hd; simpl; [by rewrite Hd|].
  by rewrite Hx, IH.
Qed.

Lemma remove_first_at f before d after :
  Forall (λ x, f x = false) before → f d = true →
  Job.remove_first f (before ++ d :: after) = ((before ++ after)%list, Some d).
Proof.
  induction 1 as [|x before Hx Hall IH]; intros Hd; simpl; [by rewrite Hd|].
  by rewrite Hx, IH.
Qed.

Lemma not_id_fields id (docs : list Job.doc) :
  Forall (λ d, Job.matches_fields (Job.set_id id Job.no_conditions) d = false) docs ↔
  Forall (λ d, Job._id d ≠ id) docs.
Proof.
  apply Forall_iff. intros d. rewrite <- id_fields.
  by destruct (Job.matches_fields _ d).
Qed.

Lemma head_matching_at f before (d : Job.doc) after :
  Forall (λ x, f x = false) before → f d = true →
  head (Job.matching f (before ++ d :: after)) = Some d.
Proof.
  intros Hall Hd. unfold Job.matching. rewrite filter_app, filter_cons_True by done.
  induction Hall as [|x before Hx Hall IH]; [done|].
  rewrite filter_cons_False; [done | by rewrite Hx].
Qed.

Lemma head_matching_none f (docs : list Job.doc) :
  Forall (λ x, f x = false) docs → head (Job.matching f docs) = None.
Proof.
  intros Hall. unfold Job.matching.
  induction Hall as [|x docs Hx Hall IH]; [done|].
  rewrite filter_cons_False; [done | by rewrite Hx].
Qed.

(** ** [updateJob]: what changes *)

(** What [updateJob] does to the collection. *)
Lemma updateJob_inv db req db' out :
  Jobs.updateJob db req = (db', out) →
  (∀ e, out = Throw e → db' = db) ∧
  (∀ job, out = Ok job →
     ∃ before d after,
       db = (before ++ d :: after)%list ∧ db' = (before ++ job :: after)%list ∧
       Forall (λ x, Job._id x ≠ params_id req) before ∧
       Job._id d = params_id req ∧
       Job._id job = Job._id d ∧ Job.createdAt job = Job.createdAt d ∧
       Job.company job = default (Job.company d) (b_company (body req)) ∧
       Job.position job = default (Job.position d) (b_position (body req)) ∧
       Job.status job = default (Job.status d) (b_status (body req)) ∧
       Job.jobType job = default (Job.jobType d) (b_jobType (body req))).
Proof.
  unfold Jobs.updateJob, Job.findByIdAndUpdate, Job.findOneAndUpdate. simpl.
  destruct (_ || _); [intros [= <- <-]; split; [done | intros ? [=]]|].
  destruct (Job.valid (body req)); [|intros [= <- <-]; split; [done | intros ? [=]]].
  destruct (update_first_cases (Job.matches_fields (Job.set_id (params_id req) Job.no_conditions))
              (body req) db) as [[Hall ->]|(before & d & after & -> & Hall & Hd & ->)].
  - intros [= <- <-]. split; [done | intros ? [=]].
  - intros [= <- <-]. split; [intros ? [=]|]. intros ? [= <-].
    exists before, d, after. apply not_id_fields in Hall. apply id_fields in Hd.
    by repeat split.
Qed.

(** X7.  An [updateJob] that fails leaves the collection as it was.  One
    that succeeds changes one document, the first with the identifier asked
    for: the job answered stands in its place, with its identifier and
    creation time, with the [company], [position], [status] and [jobType] of
    the body where the body has them and its own where not; the documents
    before and after it are untouched. *)
Theorem updateJob_effect db req db' out :
  Jobs.updateJob db req = (db', out) →
  (∀ e, out = Throw e → db' = db) ∧
  (∀ job, out = Ok job →
     ∃ before d after,
       db = (before ++ d :: after)%list ∧ db' = (before ++ job :: after)%list ∧
       Forall (λ x, Job._id x ≠ params_id req) before ∧
       Job._id d = params_id req ∧
       Job._id job = Job._id d ∧ Job.createdAt job = Job.createdAt d ∧
       Job.company job = default (Job.company d) (b_company (body req)) ∧
       Job.position job = default (Job.position d) (b_position (body req)) ∧
       Job.status job = default (Job.status d) (b_status (body req)) ∧
       Job.jobType job = default (Job.jobType d) (b_jobType (body req))).
Proof. apply updateJob_inv. Qed.

Lemma updateJob_effect_witness :
  ∃ job, Jobs.updateJob Sample.db Sample.decline_j2
         = ([Sample.j1; job; Sample.j3; Sample.j4], Ok job) ∧
         Job.status job = "declined" ∧ Job.position job = "Ops" ∧
         ∃ before d after,
           Sample.db = (before ++ d :: after)%list ∧
           [Sample.j1; job; Sample.j3; Sample.j4] = (before ++ job :: after)%list.
Proof.
  exists (Job.apply_update (body Sample.decline_j2) Sample.j2).
  split; [vm_compute; reflexivity|]. split; [reflexivity|]. split; [reflexivity|].
  destruct (proj2 (updateJob_effect Sample.db Sample.decline_j2
                     [Sample.j1; Job.apply_update (body Sample.decline_j2) Sample.j2;
                      Sample.j3; Sample.j4]
                     (Ok (Job.apply_update (body Sample.decline_j2) Sample.j2)) eq_refl)
              _ eq_refl)
    as (before & d & after & Hdb & Hdb' & _).
  exists before, d, after. split; [exact Hdb | exact Hdb'].
Defined.

Lemma apply_update_idem b d : Job.apply_update b (Job.apply_update b d) = Job.apply_update b d.
Proof.
  unfold Job.apply_update. simpl.
  destruct (b_company b), (b_position b), (b_status b), (b_jobType b); reflexivity.
Qed.

(** X8.  [updateJob] is idempotent: the same update sent again after it
    succeeded succeeds again, with the same job, and changes nothing. *)
Theorem updateJob_idempotent db req db' job :
  Jobs.updateJob db req = (db', Ok job) →
  Jobs.updateJob db' req = (db', Ok job).
Proof.
  unfold Jobs.updateJob, Job.findByIdAndUpdate, Job.findOneAndUpdate. simpl.
  destruct (_ || _); [by intros [=]|].
  destruct (Job.valid (body req)); [|by intros [=]].
  destruct (update_first_cases (Job.matches_fields (Job.set_id (params_id req) Job.no_conditions))
              (body req) db) as [[Hall ->]|(before & d & after & -> & Hall & Hd & ->)];
    [by intros [=]|].
  intros [= <- <-]. rewrite update_first_at, apply_update_idem; [done | exact Hall |].
  apply id_fields. apply id_fields in Hd. done.
Qed.

Lemma updateJob_idempotent_witness :
  ∃ db' job,
    Jobs.updateJob Sample.db Sample.foreign_update = (db', Ok job) ∧
    Jobs.updateJob db' Sample.foreign_update = (db', Ok job).
Proof.
  eexists _, _. split; [vm_compute; reflexivity|].
  apply (updateJob_idempotent Sample.db). vm_compute. reflexivity.
Defined.

(** ** [deleteJob] *)

(** What [deleteJob] does to the collection. *)
Lemma deleteJob_inv db req db' out :
  Jobs.deleteJob db req = (db', out) →
  (out = Ok tt →
     ∃ before d after,
       db = (before ++ d :: after)%list ∧ db' = (before ++ after)%list ∧
       Forall (λ x, Job._id x ≠ params_id req) before ∧ Job._id d = params_id req) ∧
  (∀ e, out = Throw e →
     e = NotFoundError ("No job with id " ++ params_id req) ∧ db' = db ∧
     Forall (λ x, Job._id x ≠ params_id req) db).
Proof.
  unfold Jobs.deleteJob, Job.findByIdAndRemove, Job.findOneAndRemove. simpl.
  destruct (remove_first_cases (Job.matches_fields (Job.set_id (params_id req) Job.no_conditions))
              db) as [[Hall ->]|(before & d & after & -> & Hall & Hd & ->)].
  - intros [= <- <-]. split; [intros [=]|]. intros ? [= <-].
    by apply not_id_fields in Hall.
  - intros [= <- <-]. split; [|intros ? [=]]. intros _.
    exists before, d, after. apply not_id_fields in Hall. apply id_fields in Hd. done.
Qed.



(** ** Handlers one after the other *)

(** X10.  A job that [createJob] created under an identifier that was not
    in use is what [getJob] answers to its creator for that identifier, and
    [getJob] signals to every other user that there is no such job. *)
Theorem create_then_get id now db req db' job user :
  Jobs.createJob id now db req = (db', Ok job) →
  Forall (λ d, Job._id d ≠ id) db →
  Jobs.getJob db' (about id req) = Ok job ∧
  (user ≠ userId req →
   Jobs.getJob db' (about id (sent_by user req)) = Throw (NotFoundError ("No job with id " ++ id))).
Proof.
  intros (Hu & Hid & _ & ->)%createJob_inv Hfresh.
  unfold Jobs.getJob, Job.findOne. simpl. split.
  - rewrite head_matching_at; [done | | by apply id_owner_fields].
    eapply Forall_impl; [exact Hfresh|]. intros d Hd. simpl in Hd.
    destruct (Job.matches_fields _ d) eqn:E; [|done].
    by apply id_owner_fields in E as [? _].
  - intros Hother. rewrite head_matching_none; [done|].
    apply Forall_app. split.
    + eapply Forall_impl; [exact Hfresh|]. intros d Hd. simpl in Hd.
      destruct (Job.matches_fields _ d) eqn:E; [|done].
      by apply id_owner_fields in E as [? _].
    + apply Forall_singleton.
      destruct (Job.matches_fields _ job) eqn:E; [|done].
      apply id_owner_fields in E as [_ E]. congruence.
Qed.

Lemma create_then_get_witness :
  ∃ db' job,
    Jobs.createJob "6f0000000000000000000005" 1706000000000 Sample.db Sample.forged_create
    = (db', Ok job) ∧
    Jobs.getJob db' (about "6f0000000000000000000005" Sample.forged_create) = Ok job ∧
    Jobs.getJob db' (about "6f0000000000000000000005" (sent_by Sample.bob Sample.forged_create))
    = Throw (NotFoundError "No job with id 6f0000000000000000000005").
Proof.
  assert (∃ db' job,
    Jobs.createJob "6f0000000000000000000005" 1706000000000 Sample.db Sample.forged_create
    = (db', Ok job)) as (db' & job & Hcreate) by (eexists _, _; vm_compute; reflexivity).
  exists db', job. split; [exact Hcreate|].
  destruct (create_then_get _ _ _ _ _ _ Sample.bob Hcreate) as [Hget Hother].
  - repeat (apply Forall_cons; split; [by vm_compute|]). apply Forall_nil_2.
  - split; [exact Hget|]. apply Hother. by vm_compute.
Defined.

(** X11.  Deleting a job right after it was created, under an identifier
    that was not in use, gives back the collection as it was before. *)
Theorem create_then_delete id now db req db' job :
  Jobs.createJob id now db req = (db', Ok job) →
  Forall (λ d, Job._id d ≠ id) db →
  Jobs.deleteJob db' (about id req) = (db, Ok tt).
Proof.
  intros (_ & Hid & _ & ->)%createJob_inv Hfresh.
  unfold Jobs.deleteJob, Job.findByIdAndRemove, Job.findOneAndRemove. simpl.
  rewrite remove_first_at; [by rewrite app_nil_r | by apply not_id_fields | by apply id_fields].
Qed.

Lemma create_then_delete_witness :
  ∃ db' job,
    Jobs.createJob "6f0000000000000000000005" 1706000000000 Sample.db Sample.forged_create
    = (db', Ok job) ∧
    Jobs.deleteJob db' (about "6f0000000000000000000005" Sample.forged_create)
    = (Sample.db, Ok tt).
Proof.
  assert (∃ db' job,
    Jobs.createJob "6f0000000000000000000005" 1706000000000 Sample.db Sample.forged_create
    = (db', Ok job)) as (db' & job & Hcreate) by (eexists _, _; vm_compute; reflexivity).
  exists db', job. split; [exact Hcreate|].
  apply (create_then_delete _ _ _ _ _ _ Hcreate).
  repeat (apply Forall_cons; split; [by vm_compute|]). apply Forall_nil_2.
Defined.

Lemma NoDup_ids_app before (d : Job.doc) after :
  NoDup (map Job._id (before ++ d :: after)) →
  Forall (λ x, Job._id x ≠ Job._id d) before ∧ Forall (λ x, Job._id x ≠ Job._id d) after.
Proof.
  rewrite map_app. simpl. intros (_ & Hdisj & Hnd)%NoDup_app.
  apply NoDup_cons in Hnd as [Hafter _]. split; apply Forall_forall; intros x Hx Heq.
  - eapply Hdisj; [apply list_elem_of_In, in_map, list_elem_of_In; exact Hx|].
    rewrite Heq. left.
  - apply Hafter. rewrite <- Heq. apply list_elem_of_In, in_map, list_elem_of_In. exact Hx.
Qed.

(** X12.  In a collection where no two jobs have the same identifier, a job
    that [deleteJob] deleted is gone for everyone: [getJob] then signals that
    there is no job with that identifier, whoever asks. *)
Theorem delete_then_get db req db' user :
  NoDup (map Job._id db) →
  Jobs.deleteJob db req = (db', Ok tt) →
  Jobs.getJob db' (sent_by user req)
  = Throw (NotFoundError ("No job with id " ++ params_id req)).
Proof.
  intros Hnd Hdel.
  destruct (proj1 (deleteJob_inv _ _ _ _ Hdel) eq_refl)
    as (before & d & after & -> & -> & _ & Hd).
  apply NoDup_ids_app in Hnd as [Hbefore Hafter]. rewrite Hd in Hbefore, Hafter.
  unfold Jobs.getJob, Job.findOne. simpl.
  rewrite head_matching_none; [done|].
  apply Forall_app. split; (eapply Forall_impl; [eassumption|]); intros x Hx; simpl in Hx;
    (destruct (Job.matches_fields _ x) eqn:E; [|done]);
    by apply id_owner_fields in E as [? _].
Qed.

Lemma sample_ids_distinct : NoDup (map Job._id Sample.db).
Proof. apply (bool_decide_unpack (NoDup (map Job._id Sample.db))). vm_compute. exact I. Qed.

Lemma delete_then_get_witness :
  ∃ db',
    Jobs.deleteJob Sample.db (Sample.sends Sample.bob (Job._id Sample.j3) Sample.no_body)
    = (db', Ok tt) ∧
    Jobs.getJob db' (Sample.sends Sample.bob (Job._id Sample.j3) Sample.no_body)
    = Throw (NotFoundError "No job with id 6f0000000000000000000003").
Proof.
  exists [Sample.j1; Sample.j2; Sample.j4]. split; [vm_compute; reflexivity|].
  apply (delete_then_get Sample.db (Sample.sends Sample.bob (Job._id Sample.j3) Sample.no_body)
           [Sample.j1; Sample.j2; Sample.j4] Sample.bob).
  - exact sample_ids_distinct.
  - vm_compute. reflexivity.
Defined.

(** X13.  In a collection where no two jobs have the same identifier, the
    job that [updateJob] answered with is what [getJob] answers to the owner
    of that job afterwards. *)
Theorem update_then_get db req db' job :
  NoDup (map Job._id db) →
  Jobs.updateJob db req = (db', Ok job) →
  Jobs.getJob db' (sent_by (Job.createdBy job) req) = Ok job.
Proof.
  intros Hnd Hup.
  destruct (proj2 (updateJob_inv _ _ _ _ Hup) _ eq_refl)
    as (before & d & after & -> & -> & Hbefore & Hd & Hid & _).
  unfold Jobs.getJob, Job.findOne. simpl.
  rewrite head_matching_at; [done | | apply id_owner_fields; split; [congruence | done]].
  eapply Forall_impl; [exact Hbefore|]. intros x Hx. simpl in Hx.
  destruct (Job.matches_fields _ x) eqn:E; [|done].
  by apply id_owner_fields in E as [? _].
Qed.

Lemma update_then_get_witness :
  ∃ db' job,
    Jobs.updateJob Sample.db Sample.decline_j2 = (db', Ok job) ∧
    Job.status job = "declined" ∧
    Jobs.getJob db' Sample.decline_j2 = Ok job.
Proof.
  exists [Sample.j1; Job.apply_update (body Sample.decline_j2) Sample.j2; Sample.j3; Sample.j4],
         (Job.apply_update (body Sample.decline_j2) Sample.j2).
  split; [vm_compute; reflexivity|]. split; [reflexivity|].
  exact (update_then_get Sample.db Sample.decline_j2 _ _ sample_ids_distinct eq_refl).
Defined.

(** ** [login]: who gets in *)

Lemma findOne_email e users u : Auth.findOne e users = Some u → Auth.email u = e ∧ u ∈ users.
Proof.
  unfold Auth.findOne. intros H%head_Some_elem_of. by apply list_elem_of_filter in H.
Qed.

(** X14.  [login] asks for an email and a password exactly when one of them
    is absent or empty, whoever is registered.  It lets in exactly when the
    email is that of a registered user and the password compares with that
    user's; the answer then has that user's email, which is the email sent,
    the user's names and location, and the token made for that user. *)
Theorem login_cases comparePassword createJWT users body :
  (Auth.login comparePassword createJWT users body
   = Throw (BadRequestError "Please provide email and password") ↔
   JS.if_truthy (Auth.c_email body) = None ∨ JS.if_truthy (Auth.c_password body) = None) ∧
  (∀ answer,
     Auth.login comparePassword createJWT users body = Ok answer ↔
     ∃ e p u,
       JS.if_truthy (Auth.c_email body) = Some e ∧
       JS.if_truthy (Auth.c_password body) = Some p ∧
       Auth.findOne e users = Some u ∧ comparePassword u p = true ∧
       answer = {| Auth.j_email := Auth.email u; Auth.j_lastName := Auth.lastName u;
                   Auth.j_location := Auth.location u; Auth.j_name := Auth.name u;
                   Auth.j_token := createJWT u |}) ∧
  (∀ answer,
     Auth.login comparePassword createJWT users body = Ok answer →
     Auth.c_email body = Some (Auth.j_email answer) ∧
     ∃ u, u ∈ users ∧ Auth.email u = Auth.j_email answer).
Proof.
  assert (∀ answer,
     Auth.login comparePassword createJWT users body = Ok answer ↔
     ∃ e p u,
       JS.if_truthy (Auth.c_email body) = Some e ∧
       JS.if_truthy (Auth.c_password body) = Some p ∧
       Auth.findOne e users = Some u ∧ comparePassword u p = true ∧
       answer = {| Auth.j_email := Auth.email u; Auth.j_lastName := Auth.lastName u;
                   Auth.j_location := Auth.location u; Auth.j_name := Auth.name u;
                   Auth.j_token := createJWT u |}) as Hok.
  { intros answer. unfold Auth.login.
    destruct (JS.if_truthy (Auth.c_email body)) as [e|];
      [destruct (JS.if_truthy (Auth.c_password body)) as [p|]|].
    - destruct (Auth.findOne e users) as [u|] eqn:Hu.
      + destruct (comparePassword u p) eqn:Hp; simpl.
        * split; [intros [= <-]; by exists e, p, u|].
          intros (e' & p' & u' & He & Hp' & Hu' & _ & ->). by simplify_eq.
        * split; [done|]. intros (e' & p' & u' & He & Hp' & Hu' & Hc & _).
          simplify_eq. congruence.
      + split; [done|]. intros (e' & p' & u' & He & _ & Hu' & _). by simplify_eq.
    - split; [done|]. intros (e' & p' & u' & _ & Hp' & _). done.
    - split; [done|]. intros (e' & p' & u' & He & _). done. }
  split; [|split; [exact Hok|]].
  - unfold Auth.login.
    destruct (JS.if_truthy (Auth.c_email body)) as [e|];
      [destruct (JS.if_truthy (Auth.c_password body)) as [p|]|].
    + destruct (Auth.findOne e users) as [u|]; [destruct (comparePassword u p)|]; simpl;
        (split; [done | by intros [|]]).
    + split; [by right | done].
    + split; [by left | done].
  - intros answer (e & p & u & He & _ & Hu & _ & ->)%Hok. simpl.
    apply findOne_email in Hu as [Hu Hin]. apply if_truthy_Some in He as [He _].
    split; [by rewrite He, Hu | by exists u].
Qed.

Lemma login_cases_witness :
  Auth.login Sample.same_password Sample.some_token [Sample.ann]
    (Sample.credentials "ann@example.com" "correct horse")
  = Ok {| Auth.j_email := "ann@example.com"; Auth.j_lastName := "Lee";
          Auth.j_location := "Oslo"; Auth.j_name := "Ann";
          Auth.j_token := "token of ann@example.com" |} ∧
  Auth.login Sample.same_password Sample.some_token [Sample.ann]
    (Sample.credentials "ann@example.com" "")
  = Throw (BadRequestError "Please provide email and password").
Proof.
  split.
  - apply (proj1 (proj2 (login_cases Sample.same_password Sample.some_token [Sample.ann]
                           (Sample.credentials "ann@example.com" "correct horse")))).
    exists "ann@example.com", "correct horse", Sample.ann. repeat split.
  - apply (proj1 (login_cases Sample.same_password Sample.some_token [Sample.ann]
                    (Sample.credentials "ann@example.com" ""))).
    by right.
Defined.

(** ** [showStats]: the counts add up *)

Lemma status_partition (l : list Job.doc) :
  (length (filter (λ d, Job.status d = "pending") l) +
   length (filter (λ d, Job.status d = "interview") l) +
   length (filter (λ d, Job.status d = "declined") l) +
   length (filter (λ d, Job.status d ∉ Job.statuses) l))%nat = length l.
Proof.
  induction l as [|d l IH]; [done|].
  rewrite !filter_cons. unfold Job.statuses in *.
  destruct (decide (Job.status d = "pending")) as [E1|E1];
    destruct (decide (Job.status d = "interview")) as [E2|E2];
    destruct (decide (Job.status d = "declined")) as [E3|E3];
    destruct (decide (Job.status d ∉ ["pending"; "interview"; "declined"])) as [E4|E4];
    simpl; try lia; try congruence; exfalso.
  - apply E4. rewrite E1, !elem_of_cons. auto.
  - apply E4. rewrite E2, !elem_of_cons. auto.
  - apply E4. rewrite E3, !elem_of_cons. auto.
  - apply E4. rewrite !not_elem_of_cons. repeat split; try done. apply not_elem_of_nil.
Qed.

(** X15.  The three counts of the status report and the number of the
    user's jobs whose status is none of the three add up to the number of the
    user's jobs: the report counts every job of the user with one of the
    three statuses once, and no other. *)
Theorem status_counts_sum db req :
  let mine := filter (λ d, Job.createdBy d = userId req) db in
  let report := Jobs.defaultStats (Jobs.showStats db req) in
  (Jobs.pending report + Jobs.interview report + Jobs.declined report +
   length (filter (λ d, Job.status d ∉ Job.statuses) mine))%nat = length mine.
Proof.
  intros mine report. unfold report, Jobs.showStats. simpl.
  rewrite !stats_property. apply status_partition.
Qed.

(** ** [showStats]: the months add up *)

Lemma filter_all {A} (P : A → Prop) `{∀ x, Decision (P x)} (l : list A) :
  Forall P l → filter P l = l.
Proof. induction 1 as [|x l Hx Hall IH]; [done|]. by rewrite filter_cons_True, IH. Qed.

Lemma filter_none {A} (P : A → Prop) `{∀ x, Decision (P x)} (l : list A) :
  Forall (λ x, ¬ P x) l → filter P l = [].
Proof. induction 1 as [|x l Hx Hall IH]; [done|]. by rewrite filter_cons_False. Qed.

Lemma filter_key_cons {A K} `{EqDecision K} (key : A → K) k (keys : list K) (docs : list A) :
  k ∉ keys →
  length (filter (λ d, key d ∈ k :: keys) docs)
  = (length (filter (λ d, key d = k) docs) + length (filter (λ d, key d ∈ keys) docs))%nat.
Proof.
  intros Hk. induction docs as [|d docs IH]; [done|].
  rewrite !filter_cons.
  destruct (decide (key d = k)) as [E|E], (decide (key d ∈ keys)) as [Hin|Hout],
           (decide (key d ∈ k :: keys)) as [Hc|Hc]; simpl; rewrite ?IH; try lia; exfalso.
  - apply Hk. by rewrite <- E.
  - apply Hk. by rewrite <- E.
  - apply Hc. rewrite E. left.
  - apply Hc. by right.
  - apply elem_of_cons in Hc as [?|?]; done.
Qed.

Lemma count_keys_sum {A K} `{EqDecision K} (key : A → K) (keys : list K) (docs : list A) :
  NoDup keys →
  sum_list_with (λ k, length (filter (λ d, key d = k) docs)) keys
  = length (filter (λ d, key d ∈ keys) docs).
Proof.
  induction 1 as [|k keys Hk Hnd IH]; simpl.
  - rewrite filter_none; [done|]. apply Forall_forall. intros d _. apply not_elem_of_nil.
  - by rewrite IH, filter_key_cons.
Qed.

(** The counts of the groups add up to the number of documents. *)
Lemma group_count_sum {A K} `{EqDecision K} (key : A → K) (docs : list A) :
  sum_list_with snd (Mongo.group_count key docs) = length docs.
Proof.
  unfold Mongo.group_count.
  transitivity (sum_list_with (λ k, length (filter (λ d, key d = k) docs))
                  (remove_dups (map key docs))).
  - generalize (remove_dups (map key docs)) as keys.
    induction keys as [|k keys IH]; [done | by simpl; rewrite IH].
  - rewrite count_keys_sum by apply NoDup_remove_dups. f_equal.
    apply filter_all, Forall_forall. intros d Hd.
    apply elem_of_remove_dups, list_elem_of_In, in_map, list_elem_of_In, Hd.
Qed.

Lemma trend_counts (l : list (Z * Z * nat)) :
  sum_list_with Jobs.count (rev (map Jobs.monthly_item l)) = sum_list_with snd l.
Proof.
  rewrite <- (Permutation_rev (map Jobs.monthly_item l)).
  induction l as [|[[y m] c] l IH]; [done | by simpl; rewrite IH].
Qed.

(** X16.  The counts of the monthly trend add up to at most the number of
    the user's jobs, and to exactly that number when the user's jobs fall in
    six months or fewer. *)
Theorem monthly_counts_sum db req :
  let mine := filter (λ d, Job.createdBy d = userId req) db in
  let trend := Jobs.monthlyApplications (Jobs.showStats db req) in
  (sum_list_with Jobs.count trend ≤ length mine)%nat ∧
  ((length (remove_dups (map bucket mine)) ≤ 6)%nat →
   sum_list_with Jobs.count trend = length mine).
Proof.
  intros mine trend. unfold trend, Jobs.showStats. simpl. rewrite trend_counts.
  set (groups := Mongo.group_count bucket mine).
  set (sorted := merge_sort Jobs.newest_first groups).
  change (Jobs.monthly_groups db req) with (take 6 sorted).
  assert (sum_list_with snd sorted = length mine) as Hsum.
  { unfold sorted. rewrite merge_sort_Permutation. apply group_count_sum. }
  split.
  - rewrite <- Hsum. rewrite <- (take_drop 6 sorted) at 2. rewrite sum_list_with_app. lia.
  - intros Hfew. rewrite take_ge; [exact Hsum|].
    unfold sorted. rewrite merge_sort_Permutation. unfold groups, Mongo.group_count.
    by rewrite length_map.
Qed.

Lemma monthly_counts_sum_witness :
  sum_list_with Jobs.count
    (Jobs.monthlyApplications (Jobs.showStats Sample.db (Sample.asks Sample.alice Sample.no_query)))
  = 3%nat ∧
  (sum_list_with Jobs.count
     (Jobs.monthlyApplications
        (Jobs.showStats Sample.eight_months (Sample.asks Sample.alice Sample.no_query)))
   ≤ 9)%nat.
Proof.
  split.
  - apply (proj2 (monthly_counts_sum Sample.db (Sample.asks Sample.alice Sample.no_query))).
    vm_compute. lia.
  - apply (proj1 (monthly_counts_sum Sample.eight_months
                    (Sample.asks Sample.alice Sample.no_query))).
Defined.

(** X17.  The statistics depend on the requester's own jobs only: on two
    collections that hold the same jobs of the requester, in the same order,
    [showStats] answers the same, whatever the jobs of other users are. *)
Theorem showStats_own_jobs_only db db' req :
  filter (λ d, Job.createdBy d = userId req) db
  = filter (λ d, Job.createdBy d = userId req) db' →
  Jobs.showStats db req = Jobs.showStats db' req.
Proof.
  intros Hsame.
  unfold Jobs.showStats, Jobs.stats_groups, Jobs.monthly_groups, Job.match_createdBy,
    Mongo.Types_ObjectId.
  by rewrite Hsame.
Qed.

Lemma showStats_own_jobs_only_witness :
  Jobs.showStats Sample.db (Sample.asks Sample.alice Sample.no_query)
  = Jobs.showStats [Sample.j1; Sample.j2; Sample.j4] (Sample.asks Sample.alice Sample.no_query).
Proof.
  apply (showStats_own_jobs_only Sample.db [Sample.j1; Sample.j2; Sample.j4]). reflexivity.
Defined.
